(** * todo-app: the Express handlers of backend/server.js over the [todos] table

    The development embeds
    - the JSON values a request body can carry and JavaScript's truthiness,
    - the [todos] table declared by [initSql] and the four statements the
      handlers send through [db.query],
    - the four route handlers of [backend/server.js],
    - the client functions of [frontend/script.js] that build requests
      ([addTodo], [updateTodo], [toggleStatus], [updateTodoStatus]),
    and proves the properties of the task store stated in the specification. *)

From Stdlib Require Import ZArith List String Ascii Bool Lia Permutation Sorted.
From Stdlib Require Import DecimalString DecimalZ DecimalPos.
Import ListNotations.

Local Open Scope string_scope.
Local Open Scope list_scope.
Local Open Scope Z_scope.

(** ** JavaScript values *)

Module JS.

(** The values one field of a parsed JSON body can hold.  [JUndefined] is the
    value destructuring yields for a key the body does not have.  Numbers are
    the integers a JSON numeral denotes exactly; arrays and nested objects are
    outside the model. *)
Inductive jsval : Type :=
| JUndefined
| JNull
| JBool (b : bool)
| JNum (n : Z)
| JStr (s : string).

Definition is_empty (s : string) : bool :=
  match s with EmptyString => true | String _ _ => false end.

(** ToBoolean: [undefined], [null], [false], [0] and [''] are falsy. *)
Definition truthy (v : jsval) : bool :=
  match v with
  | JUndefined => false
  | JNull => false
  | JBool b => b
  | JNum n => negb (n =? 0)
  | JStr s => negb (is_empty s)
  end.

(** [v !== undefined] *)
Definition defined (v : jsval) : bool :=
  match v with JUndefined => false | _ => true end.

(** [v === w] on the values of the model. *)
Definition strict_eq (v w : jsval) : bool :=
  match v, w with
  | JUndefined, JUndefined => true
  | JNull, JNull => true
  | JBool a, JBool b => Bool.eqb a b
  | JNum a, JNum b => a =? b
  | JStr a, JStr b => String.eqb a b
  | _, _ => false
  end.

(** White space in the sense of [String.prototype.trim], on one-byte
    characters: TAB, LF, VT, FF, CR and SPACE. *)
Definition is_space (c : ascii) : bool :=
  let n := N_of_ascii c in
  (((9 <=? n) && (n <=? 13)) || (n =? 32))%N.

Fixpoint trimStart (s : string) : string :=
  match s with
  | EmptyString => EmptyString
  | String c s' => if is_space c then trimStart s' else s
  end.

Fixpoint trimEnd (s : string) : string :=
  match s with
  | EmptyString => EmptyString
  | String c s' =>
      match trimEnd s' with
      | EmptyString => if is_space c then EmptyString else String c EmptyString
      | t => String c t
      end
  end.

Definition trim (s : string) : string := trimEnd (trimStart s).

(** A text made of white space only (the empty text included). *)
Fixpoint only_whitespace (s : string) : bool :=
  match s with
  | EmptyString => true
  | String c s' => is_space c && only_whitespace s'
  end.

End JS.
Import JS.

(** ** The storage layer: the [todos] table behind [db.query]

    [initSql] declares
<<
      id INT AUTO_INCREMENT PRIMARY KEY,
      task VARCHAR(255) NOT NULL,
      status ENUM('active', 'completed') DEFAULT 'active',
      created_at DATETIME DEFAULT CURRENT_TIMESTAMP
>>
    The engine and the driver are not part of the repository.  What the
    model takes from them:
    - a statement either succeeds or fails as a whole; a failed statement
      leaves the table as it was;
    - the server runs in its default (strict) SQL mode: NULL for a NOT NULL
      column, a text longer than the column and a value that is no member of
      the ENUM are errors, raised when a row is written (so an UPDATE that
      finds no row raises none);
    - [status] is not declared NOT NULL, so it can hold NULL;
    - the INT key is compared with a text by the number the text spells; a
      text that spells none fails an UPDATE or a DELETE;
    - the AUTO_INCREMENT counter starts at 1, goes up by one with each row
      inserted, and an insert fails once it has passed the range of INT;
    - for an UPDATE the driver reports in [changedRows] the rows whose content
      changed, for a DELETE in [affectedRows] the rows removed;
    - ORDER BY leaves rows with equal keys in table order (the engine promises
      no order among them; the statements below do not depend on it). *)

Module MySQL.

Record row : Type := mkRow {
  id : Z;
  task : string;
  status : option string;   (* [None] is SQL NULL: the column is nullable *)
  created_at : Z            (* a point in time, in milliseconds *)
}.

Record table : Type := mkTable {
  rows : list row;          (* in insertion order *)
  auto_increment : Z        (* the next value of the AUTO_INCREMENT counter *)
}.

(** [CREATE TABLE IF NOT EXISTS todos] on a fresh database. *)
Definition empty_table : table := {| rows := []; auto_increment := 1 |}.

(** The largest value of a signed [INT] column. *)
Definition INT_MAX : Z := 2147483647.

(** A parameter after the driver's escaping ([SqlString.escape]): [undefined]
    and [null] both become [NULL], the other scalars become literals.  (An
    array or an object would be expanded into several values or into
    [key = value] pairs and change the shape of the statement; bodies with
    such fields are outside the model.) *)
Inductive sqlval : Type :=
| SqlNull
| SqlBool (b : bool)
| SqlNum (n : Z)
| SqlStr (s : string).

Definition escape (v : jsval) : sqlval :=
  match v with
  | JUndefined => SqlNull
  | JNull => SqlNull
  | JBool b => SqlBool b
  | JNum n => SqlNum n
  | JStr s => SqlStr s
  end.

Inductive column : Type := col_task | col_status.

(** The four statement texts of [server.js], with their [?] placeholders. *)
Inductive statement : Type :=
| SELECT_FROM_todos                          (* SELECT * FROM todos ORDER BY created_at DESC *)
| INSERT_INTO_todos                          (* INSERT INTO todos (task) VALUES (?) *)
| UPDATE_todos_SET (fields : list column)   (* UPDATE todos SET <fields, each = ?> WHERE id = ? *)
| DELETE_FROM_todos.                         (* DELETE FROM todos WHERE id = ? *)

Inductive db_error : Type :=
| PROTOCOL_CONNECTION_LOST   (* the storage cannot be reached *)
| ER_PARSE_ERROR             (* a placeholder left without a value, or an empty SET list *)
| ER_BAD_NULL_ERROR          (* NULL for a NOT NULL column *)
| ER_DATA_TOO_LONG           (* text longer than the column *)
| WARN_DATA_TRUNCATED        (* a value that is no member of the ENUM *)
| ER_TRUNCATED_WRONG_VALUE   (* a text compared with the INT key that is no numeral *)
| ER_DUP_ENTRY.              (* the AUTO_INCREMENT counter has passed INT_MAX *)

(** The result object the driver hands to the callback: an array of rows for
    a SELECT, a header with [insertId], [affectedRows] and [changedRows]
    otherwise. *)
Inductive results : Type :=
| ResultRows (l : list row)
| ResultSetHeader (insertId affectedRows changedRows : Z).

Definition insertId (r : results) : Z :=
  match r with ResultSetHeader i _ _ => i | ResultRows _ => 0 end.
Definition affectedRows (r : results) : Z :=
  match r with ResultSetHeader _ a _ => a | ResultRows _ => 0 end.
Definition changedRows (r : results) : Z :=
  match r with ResultSetHeader _ _ c => c | ResultRows _ => 0 end.

(** *** Column coercions *)

Fixpoint skip (n : nat) (s : string) : string :=
  match n, s with
  | O, _ => s
  | S n', String _ s' => skip n' s'
  | S _, EmptyString => EmptyString
  end.

Fixpoint take (n : nat) (s : string) : string :=
  match n, s with
  | S n', String c s' => String c (take n' s')
  | _, _ => EmptyString
  end.

Fixpoint all_blank (s : string) : bool :=
  match s with
  | EmptyString => true
  | String c s' => (N_of_ascii c =? 32)%N && all_blank s'
  end.

(** VARCHAR(255): a text of at most 255 characters is stored as it is; excess
    trailing spaces are cut off; any other longer text is refused. *)
Definition varchar255 (s : string) : db_error + string :=
  if (String.length s <=? 255)%nat then inr s
  else if all_blank (skip 255 s) then inr (take 255 s)
  else inl ER_DATA_TOO_LONG.

Definition decimal (n : Z) : string := NilZero.string_of_int (Z.to_int n).

(** What the column [task VARCHAR(255) NOT NULL] stores for a parameter. *)
Definition store_task (v : sqlval) : db_error + string :=
  match v with
  | SqlNull => inl ER_BAD_NULL_ERROR
  | SqlBool b => inr (if b then "1" else "0")
  | SqlNum n => varchar255 (decimal n)
  | SqlStr s => varchar255 s
  end.

Definition lower (c : ascii) : ascii :=
  let n := N_of_ascii c in
  if ((65 <=? n) && (n <=? 90))%N then ascii_of_N (n + 32) else c.

Fixpoint lowercase (s : string) : string :=
  match s with
  | EmptyString => EmptyString
  | String c s' => String (lower c) (lowercase s')
  end.

(** The member of [ENUM('active', 'completed')] with a given index. *)
Definition enum_member (index : Z) : db_error + option string :=
  if index =? 1 then inr (Some "active")
  else if index =? 2 then inr (Some "completed")
  else inl WARN_DATA_TRUNCATED.

(** What the nullable column [status ENUM('active', 'completed')] stores for
    a parameter: NULL stays NULL, a number is a member's index, a text is
    matched against the members without regard to letter case (the default
    collation) and stored in the declared spelling. *)
Definition store_status (v : sqlval) : db_error + option string :=
  match v with
  | SqlNull => inr None
  | SqlBool b => enum_member (if b then 1 else 0)
  | SqlNum n => enum_member n
  | SqlStr s =>
      if String.eqb (lowercase s) "active" then inr (Some "active")
      else if String.eqb (lowercase s) "completed" then inr (Some "completed")
      else inl WARN_DATA_TRUNCATED
  end.

(** The operand of [WHERE id = ?] as a number; [None] is NULL, which equals
    no key.  A text that is a decimal numeral is compared by its value; any
    other text makes the statement fail, as the strict mode does for UPDATE
    and DELETE. *)
Definition key_of (v : sqlval) : db_error + option Z :=
  match v with
  | SqlNull => inr None
  | SqlBool b => inr (Some (if b then 1 else 0))
  | SqlNum n => inr (Some n)
  | SqlStr s =>
      match NilZero.int_of_string s with
      | Some d => inr (Some (Z.of_int d))
      | None => inl ER_TRUNCATED_WRONG_VALUE
      end
  end.

Definition has_key (k : option Z) (r : row) : bool :=
  match k with
  | Some n => id r =? n
  | None => false
  end.

(** *** Statements *)

Definition row_eqb (a b : row) : bool :=
  (id a =? id b)
  && String.eqb (task a) (task b)
  && match status a, status b with
     | Some x, Some y => String.eqb x y
     | None, None => true
     | _, _ => false
     end
  && (created_at a =? created_at b).

(** One assignment [col = v] of a SET list, on one row. *)
Definition assign (c : column) (v : sqlval) (r : row) : db_error + row :=
  match c with
  | col_task =>
      match store_task v with
      | inl e => inl e
      | inr t => inr {| id := id r; task := t; status := status r; created_at := created_at r |}
      end
  | col_status =>
      match store_status v with
      | inl e => inl e
      | inr s => inr {| id := id r; task := task r; status := s; created_at := created_at r |}
      end
  end.

(** The SET list, left to right, on one row. *)
Fixpoint assign_all (set : list (column * sqlval)) (r : row) : db_error + row :=
  match set with
  | [] => inr r
  | (c, v) :: set' =>
      match assign c v r with
      | inl e => inl e
      | inr r' => assign_all set' r'
      end
  end.

(** UPDATE over the rows: the rows with the key are rewritten, the others
    kept; the first row that refuses a value fails the statement.  The second
    and third components count the rows matched and the rows whose content
    changed. *)
Fixpoint update_rows (set : list (column * sqlval)) (k : option Z) (l : list row)
  : db_error + (list row * Z * Z) :=
  match l with
  | [] => inr ([], 0, 0)
  | r :: l' =>
      if has_key k r then
        match assign_all set r with
        | inl e => inl e
        | inr r' =>
            match update_rows set k l' with
            | inl e => inl e
            | inr (l'', matched, changed) =>
                inr (r' :: l'', matched + 1, if row_eqb r r' then changed else changed + 1)
            end
        end
      else
        match update_rows set k l' with
        | inl e => inl e
        | inr (l'', matched, changed) => inr (r :: l'', matched, changed)
        end
  end.

(** ORDER BY created_at DESC: insertion into a list sorted newest first; rows
    with equal timestamps keep their table order. *)
Fixpoint insert_desc (r : row) (l : list row) : list row :=
  match l with
  | [] => [r]
  | x :: l' =>
      if created_at x <=? created_at r then r :: l else x :: insert_desc r l'
  end.

Fixpoint order_by_created_at_desc (l : list row) : list row :=
  match l with
  | [] => []
  | r :: l' => insert_desc r (order_by_created_at_desc l')
  end.

(** Placeholders are filled from the values in order ([SqlString.format]);
    a placeholder left over stays a bare [?], which the server cannot parse. *)
Fixpoint bind_set (fields : list column) (values : list sqlval)
  : option (list (column * sqlval) * list sqlval) :=
  match fields with
  | [] => Some ([], values)
  | c :: fields' =>
      match values with
      | [] => None
      | v :: values' =>
          match bind_set fields' values' with
          | Some (set, rest) => Some ((c, v) :: set, rest)
          | None => None
          end
      end
  end.

(** The world outside one request: whether the storage answers, the
    database's CURRENT_TIMESTAMP, and what [new Date()] gives in the Node
    process when the callback runs. *)
Record env : Type := mkEnv {
  storage_up : bool;
  CURRENT_TIMESTAMP : Z;
  new_Date : Z
}.

(** One statement with its values against the table. *)
Definition execute (e : env) (sql : statement) (values : list sqlval) (t : table)
  : (db_error + results) * table :=
  if negb (storage_up e) then (inl PROTOCOL_CONNECTION_LOST, t)
  else
    match sql with
    | SELECT_FROM_todos => (inr (ResultRows (order_by_created_at_desc (rows t))), t)
    | INSERT_INTO_todos =>
        match values with
        | [] => (inl ER_PARSE_ERROR, t)
        | v :: _ =>
            match store_task v with
            | inl err => (inl err, t)
            | inr text =>
                if INT_MAX <? auto_increment t then (inl ER_DUP_ENTRY, t)
                else
                  let r := {| id := auto_increment t; task := text;
                              status := Some "active";
                              created_at := CURRENT_TIMESTAMP e |} in
                  (inr (ResultSetHeader (auto_increment t) 1 0),
                   {| rows := rows t ++ [r]; auto_increment := auto_increment t + 1 |})
            end
        end
    | UPDATE_todos_SET fields =>
        match fields, bind_set fields values with
        | _ :: _, Some (set, v :: _) =>
            match key_of v with
            | inl err => (inl err, t)
            | inr k =>
                match update_rows set k (rows t) with
                | inl err => (inl err, t)
                | inr (l, matched, changed) =>
                    (inr (ResultSetHeader 0 matched changed),
                     {| rows := l; auto_increment := auto_increment t |})
                end
            end
        | _, _ => (inl ER_PARSE_ERROR, t)
        end
    | DELETE_FROM_todos =>
        match values with
        | [] => (inl ER_PARSE_ERROR, t)
        | v :: _ =>
            match key_of v with
            | inl err => (inl err, t)
            | inr k =>
                let deleted := filter (has_key k) (rows t) in
                let kept := filter (fun r => negb (has_key k r)) (rows t) in
                (inr (ResultSetHeader 0 (Z.of_nat (List.length deleted)) 0),
                 {| rows := kept; auto_increment := auto_increment t |})
            end
        end
    end.

End MySQL.
Import MySQL.

(** ** backend/server.js *)

Module Server.

(** The text of an error body: a literal of [server.js], or [err.message] of
    an error the driver reported. *)
Inductive error_message : Type :=
| Literal (s : string)
| err_message (err : db_error).

(** The JSON bodies the handlers send. *)
Inductive json : Type :=
| json_error (error : error_message)              (* { error } *)
| json_data (message : string) (data : results)   (* { message, data: results } *)
| json_task (message : string) (id : Z) (task : jsval) (status : string) (created_at : Z)
                                                  (* { message, data: { id, task, status, created_at } } *)
| json_changes (message : string) (changes : Z).  (* { message, changes } *)

Record response : Type := mkResponse {
  status_code : Z;
  body : json
}.

(** [res.json(j)] and [res.status(code).json(j)]. *)
Definition res_json (j : json) : response := {| status_code := 200; body := j |}.
Definition res_status_json (code : Z) (j : json) : response :=
  {| status_code := code; body := j |}.

(** The connection [db]: the table behind it and, in order, every call of
    [db.query] made so far. *)
Record Db : Type := mkDb {
  todos : table;
  queries : list (statement * list jsval)
}.

Definition handler : Type := env -> Db -> response * Db.

(** [db.query(sql, values, callback)]: the callback receives the error or the
    results and sends the response. *)
Definition db_query (sql : statement) (values : list jsval)
    (callback : db_error + results -> response) : handler :=
  fun e db =>
    let (outcome, t) := execute e sql (map escape values) (todos db) in
    (callback outcome, {| todos := t; queries := queries db ++ [(sql, values)] |}).

(** [app.get('/todos', ...)] *)
Definition get_todos : handler :=
  fun e =>
    let sql := SELECT_FROM_todos in
    db_query sql [] (fun outcome =>
      match outcome with
      | inl err => res_status_json 400 (json_error (err_message err))
      | inr results => res_json (json_data "success" results)
      end) e.

(** [app.post('/todos', ...)]; [task] is [req.body.task]. *)
Definition post_todos (task : jsval) : handler :=
  fun e db =>
    if negb (truthy task) then
      (res_status_json 400 (json_error (Literal "Task content is required")), db)
    else
      let sql := INSERT_INTO_todos in
      db_query sql [task] (fun outcome =>
        match outcome with
        | inl err => res_status_json 400 (json_error (err_message err))
        | inr results =>
            res_json (json_task "success" (insertId results) task "active" (new_Date e))
        end) e db.

(** [app.put('/todos/:id', ...)]; [task] and [status] are the two fields of
    [req.body], [id] is [req.params.id], the text of the path segment. *)
Definition put_todos (id : string) (task status : jsval) : handler :=
  fun e db =>
    let fields : list column := [] in
    let values : list jsval := [] in
    let '(fields, values) :=
      if defined task then (fields ++ [col_task], values ++ [task])
      else (fields, values) in
    let '(fields, values) :=
      if defined status then (fields ++ [col_status], values ++ [status])
      else (fields, values) in
    if (List.length fields =? 0)%nat then
      (res_status_json 400 (json_error (Literal "No fields to update")), db)
    else
      let values := values ++ [JStr id] in
      let sql := UPDATE_todos_SET fields in
      db_query sql values (fun outcome =>
        match outcome with
        | inl err => res_status_json 400 (json_error (err_message err))
        | inr results => res_json (json_changes "success" (changedRows results))
        end) e db.

(** [app.delete('/todos/:id', ...)] *)
Definition delete_todos (id : string) : handler :=
  fun e =>
    let sql := DELETE_FROM_todos in
    db_query sql [JStr id] (fun outcome =>
      match outcome with
      | inl err => res_status_json 400 (json_error (err_message err))
      | inr results => res_json (json_changes "deleted" (affectedRows results))
      end) e.

(** The four request shapes and the router. *)
Inductive request : Type :=
| GET
| POST (task : jsval)
| PUT (id : string) (task status : jsval)
| DELETE (id : string).

Definition app (r : request) : handler :=
  match r with
  | GET => get_todos
  | POST task => post_todos task
  | PUT id task status => put_todos id task status
  | DELETE id => delete_todos id
  end.

(** The connection right after start-up on a fresh database. *)
Definition initial_db : Db := {| todos := empty_table; queries := [] |}.

(** The states of the connection the API can lead to: any request, under any
    circumstances, from a state already reached. *)
Inductive reachable : Db -> Prop :=
| reachable_initial : reachable initial_db
| reachable_request (r : request) (e : env) (db : Db) :
    reachable db -> reachable (snd (app r e db)).

(** The two kinds of failure of the specification, both sent with 400. *)
Definition ValidationError (res : response) : Prop :=
  status_code res = 400 /\ exists s, body res = json_error (Literal s).

Definition StorageError (res : response) : Prop :=
  status_code res = 400 /\ exists err, body res = json_error (err_message err).

End Server.
Import Server.

(** ** frontend/script.js: the functions that build requests

    Each function is modelled by the mutating request it sends, if any; the GET
    that refreshes the view afterwards changes nothing and is left out. *)

Module Client.

(** What the rendered list holds for a row: [todo.status] is the stored
    text, or [null]. *)
Definition todo_status (r : row) : jsval :=
  match status r with
  | Some s => JStr s
  | None => JNull
  end.

(** [updateTodoStatus(id, status)]: PUT with the body [{ status }], to the
    path the template literal builds from the number [id]. *)
Definition updateTodoStatus (id : Z) (status : string) : request :=
  PUT (decimal id) JUndefined (JStr status).

(** [toggleStatus(id, currentStatus)] *)
Definition toggleStatus (id : Z) (currentStatus : jsval) : request :=
  let newStatus :=
    if strict_eq currentStatus (JStr "active") then "completed" else "active" in
  updateTodoStatus id newStatus.

(** [addTodo()], with [input] the content of the text box. *)
Definition addTodo (input : string) : option request :=
  let task := trim input in
  if negb (truthy (JStr task)) then None
  else Some (POST (JStr task)).

(** [updateTodo(id, newTask)] *)
Definition updateTodo (id : Z) (newTask : string) : option request :=
  if negb (truthy (JStr (trim newTask))) then None
  else Some (PUT (decimal id) (JStr newTask) JUndefined).

(** The connection after the client has sent what it decided to send. *)
Definition send (r : option request) (e : env) (db : Db) : Db :=
  match r with
  | Some r => snd (app r e db)
  | None => db
  end.

(** A click on the status button of the row with key [id], in a view that
    shows the current table: the handler installed by [renderTodos] calls
    [toggleStatus(todo.id, todo.status)]. *)
Definition click_status (id : Z) (e : env) (db : Db) : Db :=
  match find (has_key (Some id)) (rows (todos db)) with
  | Some r => snd (app (toggleStatus (MySQL.id r) (todo_status r)) e db)
  | None => db
  end.

End Client.
Import Client.

(** ** The vocabulary of the statements *)

(** The columns a SET list names. *)
Definition names (c : column) (set : list (column * sqlval)) : bool :=
  existsb (fun cv => match c, fst cv with
                     | col_task, col_task | col_status, col_status => true
                     | _, _ => false
                     end) set.

(** How many rows differ between a table content and its successor. *)
Fixpoint changed_count (l l' : list row) : nat :=
  match l, l' with
  | r :: l1, r' :: l1' =>
      if row_eqb r r' then changed_count l1 l1' else S (changed_count l1 l1')
  | _, _ => O
  end.

(** The SET list [put_todos] assembles from the two body fields. *)
Definition set_list (task status : jsval) : list (column * sqlval) :=
  (if defined task then [(col_task, escape task)] else [])
  ++ (if defined status then [(col_status, escape status)] else []).

(** The rows of [l'] stand in the places of the rows of [l], and in each
    place a PUT for the key [i] with the body fields [task] and [status] has
    left alone what it was not given. *)
Definition untouched (i : Z) (task status : jsval) (r r' : row) : Prop :=
  id r' = id r
  /\ created_at r' = created_at r
  /\ (task = JUndefined -> MySQL.task r' = MySQL.task r)
  /\ (status = JUndefined -> MySQL.status r' = MySQL.status r)
  /\ (id r <> i -> r' = r).

(** The primary key: the keys are distinct, positive and below the counter. *)
Definition primary_key (t : table) : Prop :=
  NoDup (map id (rows t))
  /\ Forall (fun r => 1 <= id r < auto_increment t) (rows t)
  /\ 1 <= auto_increment t.

(** A status cell holds a member of the ENUM or NULL. *)
Definition member_or_null (r : row) : Prop :=
  status r = Some "active" \/ status r = Some "completed" \/ status r = None.

Definition newest_first (a b : row) : Prop := created_at b <= created_at a.

(** The row with key [i] gets the status [s]; the others stay. *)
Definition set_status (i : Z) (s : string) (r : row) : row :=
  if has_key (Some i) r
  then {| id := id r; task := task r; status := Some s; created_at := created_at r |}
  else r.

(** The value [toggleStatus] computes from what the view shows. *)
Definition opposite (currentStatus : jsval) : string :=
  if strict_eq currentStatus (JStr "active") then "completed" else "active".

(** ** Sample circumstances and states *)

(** The storage answers; the Node clock reads 42 ms after the second the
    database stamps the row with. *)
Definition sample_env : env :=
  {| storage_up := true; CURRENT_TIMESTAMP := 1762151696000; new_Date := 1762151696042 |}.

(** The table after [POST { task: "Buy milk" }] on a fresh database. *)
Definition one_task_db : Db := snd (app (POST (JStr "Buy milk")) sample_env initial_db).


(** ** frontend/script.js: the delete confirmation

    [todoIdToDelete] is the key the modal dialog is asking about, or [null].
    The confirm listener is an async function: it sends its request, is
    suspended at [await fetch(...)], and hides the dialog only when the fetch
    has settled; other listeners can run in between. *)

Module Modal.

Record modal : Type := mkModal {
  todoIdToDelete : option Z;   (* [None] is [null] *)
  hidden : bool;               (* [deleteModal] has the class 'hidden' *)
  awaiting : nat               (* runs of the confirm listener suspended at
                                  their [await] *)
}.

(** [showDeleteModal(id)] *)
Definition showDeleteModal (id : Z) (m : modal) : modal :=
  {| todoIdToDelete := Some id; hidden := false; awaiting := awaiting m |}.

(** [hideDeleteModal()] *)
Definition hideDeleteModal (m : modal) : modal :=
  {| todoIdToDelete := None; hidden := true; awaiting := awaiting m |}.

(** [deleteTodo(id)], called by the delete button of a rendered task. *)
Definition deleteTodo (id : Z) (m : modal) : modal := showDeleteModal id m.

(** The click listener of [confirmDeleteBtn], up to its [await]:
    [if (todoIdToDelete)] sends the DELETE to the path the template literal
    builds from the key and suspends; otherwise nothing happens. *)
Definition confirmDelete (m : modal) : option request * modal :=
  match todoIdToDelete m with
  | Some id =>
      if truthy (JNum id)
      then (Some (DELETE (decimal id)),
            {| todoIdToDelete := todoIdToDelete m; hidden := hidden m;
               awaiting := S (awaiting m) |})
      else (None, m)
  | None => (None, m)
  end.

(** The rest of the listener, run once the fetch it awaits has settled:
    if it was fulfilled, [fetchTodos()] sends the GET that refreshes the
    view; fulfilled or rejected, [hideDeleteModal()] is called. *)
Definition confirmDelete_resumed (fulfilled : bool) (m : modal)
  : option request * modal :=
  match awaiting m with
  | O => (None, m)
  | S n =>
      (if fulfilled then Some GET else None,
       hideDeleteModal
         {| todoIdToDelete := todoIdToDelete m; hidden := hidden m; awaiting := n |})
  end.

(** What can happen to the dialog. *)
Inductive event : Type :=
| click_delete (id : Z)     (* the delete button of the task with key [id] *)
| click_confirm             (* [confirmDeleteBtn] *)
| click_cancel              (* [cancelDeleteBtn] *)
| click_dialog (on_backdrop : bool)
                            (* inside [deleteModal]; on the backdrop when
                               [e.target === deleteModal] *)
| fetch_settled (fulfilled : bool).
                            (* the fetch of a suspended confirm listener
                               settles *)

Definition on_event (c : event) (m : modal) : option request * modal :=
  match c with
  | click_delete id => (None, deleteTodo id m)
  | click_confirm => confirmDelete m
  | click_cancel => (None, hideDeleteModal m)
  | click_dialog on_backdrop => (None, if on_backdrop then hideDeleteModal m else m)
  | fetch_settled fulfilled => confirmDelete_resumed fulfilled m
  end.

(** The requests a sequence of events sends, in order, and the dialog after. *)
Fixpoint events (cs : list event) (m : modal) : list request * modal :=
  match cs with
  | [] => ([], m)
  | c :: cs' =>
      let (sent, m') := on_event c m in
      let (rest, m'') := events cs' m' in
      (match sent with Some r => r :: rest | None => rest end, m'')
  end.

End Modal.
Import Modal.

(** ** Histories *)

(** The connection after a sequence of requests, each under its own
    circumstances. *)
Fixpoint serve (history : list (request * env)) (db : Db) : Db :=
  match history with
  | [] => db
  | (r, e) :: history' => serve history' (snd (app r e db))
  end.

(** What a user of the page can make the client send. *)
Inductive action : Type :=
| add_task (input : string)              (* [addTodo()] with this text in the box *)
| commit_edit (id : Z) (newTask : string) (* [updateTodo(id, input.value)], on Enter or blur *)
| press_status (id : Z)                  (* the status button of the task with key [id] *)
| confirm_delete (id : Z)                (* the DELETE the confirm listener sends *)
| refresh.                               (* [fetchTodos()] *)

Definition perform (a : action) (e : env) (db : Db) : Db :=
  match a with
  | add_task input => send (addTodo input) e db
  | commit_edit id newTask => send (updateTodo id newTask) e db
  | press_status id => click_status id e db
  | confirm_delete id => send (Some (DELETE (decimal id))) e db
  | refresh => send (Some GET) e db
  end.

(** The states of the connection the page alone can lead to. *)
Inductive page_reachable : Db -> Prop :=
| page_initial : page_reachable initial_db
| page_action (a : action) (e : env) (db : Db) :
    page_reachable db -> page_reachable (perform a e db).

(** The row a PUT that is accepted leaves in the place of [r]: a text field
    replaces the text, a status field that names a member replaces the
    status. *)
Definition put_row (task status : jsval) (r : row) : row :=
  {| id := id r;
     task := match task with JStr s => s | _ => MySQL.task r end;
     status := match status with JStr s => Some s | _ => MySQL.status r end;
     created_at := created_at r |}.

(** A body field a PUT can carry without the storage refusing it: absent, or
    a text that fits the column ([fits] decides which texts do). *)
Definition field_ok (fits : string -> bool) (v : jsval) : bool :=
  match v with
  | JUndefined => true
  | JStr s => fits s
  | _ => false
  end.

Definition fits_task (s : string) : bool := (String.length s <=? 255)%nat.

Definition is_member (s : string) : bool :=
  String.eqb s "active" || String.eqb s "completed".

(** A row as the page leaves it: a text that is not blank and a status that
    is a member of the ENUM. *)
Definition well_kept (r : row) : Prop :=
  only_whitespace (task r) = false
  /\ (status r = Some "active" \/ status r = Some "completed").

(** A text that begins, or ends, with white space. *)
Definition starts_with_space (s : string) : bool :=
  match s with
  | EmptyString => false
  | String c _ => is_space c
  end.

Fixpoint ends_with_space (s : string) : bool :=
  match s with
  | EmptyString => false
  | String c EmptyString => is_space c
  | String _ s' => ends_with_space s'
  end.

(** A text of one-byte characters only. *)
Fixpoint ascii_only (s : string) : bool :=
  match s with
  | EmptyString => true
  | String c s' => (N_of_ascii c <? 128)%N && ascii_only s'
  end.

(** A body field that is absent or a text, as the interface describes the
    fields, and a request whose body fields are such. *)
Definition text_or_absent (v : jsval) : bool :=
  match v with
  | JUndefined => true
  | JStr _ => true
  | _ => false
  end.

Definition plain (r : request) : bool :=
  match r with
  | GET => true
  | POST task => text_or_absent task
  | PUT _ task status => text_or_absent task && text_or_absent status
  | DELETE _ => true
  end.

Definition plain_history (history : list (request * env)) : bool :=
  forallb (fun re => plain (fst re)) history.

(** * Properties *)

(** ** Rows, keys and the refusal-free part of the engine *)

Lemma row_eqb_eq (a b : row) : row_eqb a b = true <-> a = b.
Proof.
  destruct a as [i t s c], b as [i' t' s' c']; unfold row_eqb; simpl.
  rewrite !andb_true_iff, !Z.eqb_eq, String.eqb_eq.
  split.
  - intros [[[Hi Ht] Hs] Hc]; subst.
    destruct s as [x|], s' as [y|]; try discriminate; [|reflexivity].
    apply String.eqb_eq in Hs; subst; reflexivity.
  - intros H; inversion H; subst.
    repeat split; destruct s' as [y|]; auto using String.eqb_refl.
Qed.

Lemma row_eqb_refl (a : row) : row_eqb a a = true.
Proof. apply row_eqb_eq; reflexivity. Qed.

Lemma has_key_Some (n : Z) (r : row) : has_key (Some n) r = true <-> id r = n.
Proof. simpl; apply Z.eqb_eq. Qed.

Lemma has_key_Some_false (n : Z) (r : row) : has_key (Some n) r = false <-> id r <> n.
Proof. simpl; apply Z.eqb_neq. Qed.

(** The path the client builds from a key spells that key. *)
Lemma key_of_decimal (i : Z) : key_of (SqlStr (decimal i)) = inr (Some i).
Proof.
  unfold key_of, decimal; rewrite NilZero.isi.
  - rewrite DecimalZ.of_to; reflexivity.
  - destruct i as [|p|p]; simpl; try discriminate.
    intros H; injection H as H; revert H; apply Unsigned.to_uint_nonnil.
  - destruct i as [|p|p]; simpl; try discriminate.
    intros H; injection H as H; revert H; apply Unsigned.to_uint_nonnil.
Qed.

Lemma key_of_text (id : string) (k : option Z) :
  key_of (SqlStr id) = inr k -> exists i, k = Some i.
Proof.
  simpl; destruct (NilZero.int_of_string id) as [d|]; [|discriminate].
  intros H; inversion H; eauto.
Qed.

Lemma table_eta (t : table) :
  {| rows := rows t; auto_increment := auto_increment t |} = t.
Proof. destruct t; reflexivity. Qed.

Lemma assign_all_frame (set : list (column * sqlval)) (r r' : row) :
  assign_all set r = inr r' ->
  id r' = id r /\ created_at r' = created_at r
  /\ (names col_task set = false -> task r' = task r)
  /\ (names col_status set = false -> status r' = status r).
Proof.
  revert r; induction set as [|[c v] set IH]; intros r H; simpl in H.
  - inversion H; subst; auto.
  - destruct (assign c v r) as [err|r1] eqn:Ha; [discriminate|].
    apply IH in H; destruct H as (Hi & Hc & Ht & Hs).
    assert (id r1 = id r /\ created_at r1 = created_at r
            /\ (c <> col_task -> task r1 = task r)
            /\ (c <> col_status -> status r1 = status r)) as (Hi1 & Hc1 & Ht1 & Hs1).
    { destruct c; simpl in Ha.
      - destruct (store_task v); inversion Ha; subst; simpl; tauto.
      - destruct (store_status v); inversion Ha; subst; simpl; tauto. }
    repeat split; try congruence.
    + simpl; intros Hn; apply orb_false_iff in Hn; destruct Hn as [Hc0 Hn].
      rewrite (Ht Hn); apply Ht1; destruct c; simpl in Hc0; congruence.
    + simpl; intros Hn; apply orb_false_iff in Hn; destruct Hn as [Hc0 Hn].
      rewrite (Hs Hn); apply Hs1; destruct c; simpl in Hc0; congruence.
Qed.

(** UPDATE, when it succeeds: row by row, a row without the key is kept, a
    row with it is the result of the SET list; the counts are those of the
    rows found and of the rows that differ afterwards. *)
Lemma update_rows_spec (set : list (column * sqlval)) (k : option Z) (l l' : list row)
    (matched changed : Z) :
  update_rows set k l = inr (l', matched, changed) ->
  Forall2 (fun r r' =>
             if has_key k r then assign_all set r = inr r' else r' = r) l l'
  /\ matched = Z.of_nat (List.length (filter (has_key k) l))
  /\ changed = Z.of_nat (changed_count l l').
Proof.
  revert l' matched changed; induction l as [|r l IH]; intros l' m c H; simpl in H.
  - inversion H; subst; simpl; auto.
  - destruct (has_key k r) eqn:Hk.
    + destruct (assign_all set r) as [err|r'] eqn:Ha; [discriminate|].
      destruct (update_rows set k l) as [err|[[l1 m1] c1]]; [discriminate|].
      inversion H; subst; clear H.
      destruct (IH _ _ _ eq_refl) as (HF & Hm & Hc).
      repeat split.
      * constructor; [rewrite Hk; exact Ha | exact HF].
      * simpl; rewrite Hk; simpl List.length; lia.
      * simpl; destruct (row_eqb r r'); lia.
    + destruct (update_rows set k l) as [err|[[l1 m1] c1]]; [discriminate|].
      inversion H; subst; clear H.
      destruct (IH _ _ _ eq_refl) as (HF & Hm & Hc).
      repeat split.
      * constructor; [rewrite Hk; reflexivity | exact HF].
      * simpl; rewrite Hk; lia.
      * simpl; rewrite row_eqb_refl; lia.
Qed.


Lemma update_rows_total (set : list (column * sqlval)) (f : row -> row)
    (k : option Z) (l : list row) :
  (forall r, assign_all set r = inr (f r)) ->
  update_rows set k l
  = inr (map (fun r => if has_key k r then f r else r) l,
         Z.of_nat (List.length (filter (has_key k) l)),
         Z.of_nat (changed_count l (map (fun r => if has_key k r then f r else r) l))).
Proof.
  intros Hf; induction l as [|r l IH]; [reflexivity|].
  cbn [update_rows map filter changed_count]; rewrite IH, Hf.
  destruct (has_key k r).
  - destruct (row_eqb r (f r)); cbn [List.length]; do 3 f_equal; lia.
  - rewrite row_eqb_refl; reflexivity.
Qed.

Lemma filter_none {A : Type} (f : A -> bool) (l : list A) :
  (forall x, In x l -> f x = false) -> filter f l = [].
Proof.
  induction l as [|a l IH]; intros H; simpl; [reflexivity|].
  rewrite (H a (or_introl eq_refl)); auto using in_cons.
Qed.

Lemma filter_all {A : Type} (f : A -> bool) (l : list A) :
  (forall x, In x l -> f x = true) -> filter f l = l.
Proof.
  induction l as [|a l IH]; intros H; simpl; [reflexivity|].
  rewrite (H a (or_introl eq_refl)); f_equal; auto using in_cons.
Qed.

Lemma filter_split_length {A : Type} (f : A -> bool) (l : list A) :
  (List.length (filter f l) + List.length (filter (fun x => negb (f x)) l)
   = List.length l)%nat.
Proof.
  induction l as [|a l IH]; simpl; [reflexivity|].
  destruct (f a); simpl; lia.
Qed.

(** ** What each handler does to the table *)

Lemma db_query_run (sql : statement) (values : list jsval)
    (callback : db_error + results -> response) (e : env) (db : Db) :
  db_query sql values callback e db
  = (callback (fst (execute e sql (map escape values) (todos db))),
     {| todos := snd (execute e sql (map escape values) (todos db));
        queries := queries db ++ [(sql, values)] |}).
Proof.
  unfold db_query; destruct (execute e sql (map escape values) (todos db));
    reflexivity.
Qed.

Lemma put_todos_run (id : string) (k : option Z) (task status : jsval)
    (e : env) (db : Db) :
  defined task || defined status = true ->
  storage_up e = true ->
  key_of (SqlStr id) = inr k ->
  (fst (put_todos id task status e db), todos (snd (put_todos id task status e db)))
  = match update_rows (set_list task status) k (rows (todos db)) with
    | inl err => (res_status_json 400 (json_error (err_message err)), todos db)
    | inr (l, _, changed) =>
        (res_json (json_changes "success" changed),
         {| rows := l; auto_increment := auto_increment (todos db) |})
    end.
Proof.
  intros Hf Hup Hk.
  destruct task, status; try discriminate Hf;
    unfold put_todos, db_query, execute, set_list;
    cbn [defined escape Datatypes.app List.length Nat.eqb map bind_set negb];
    rewrite Hup; cbn [negb]; rewrite Hk;
    match goal with
    | |- context [update_rows ?s ?k ?l] =>
        destruct (update_rows s k l) as [err|[[l' m] c]]; reflexivity
    end.
Qed.

(** A path segment that is no numeral makes the storage fail the UPDATE. *)
Lemma put_todos_bad_key (id : string) (err : db_error) (task status : jsval)
    (e : env) (db : Db) :
  defined task || defined status = true ->
  storage_up e = true ->
  key_of (SqlStr id) = inl err ->
  fst (put_todos id task status e db)
  = res_status_json 400 (json_error (err_message err))
  /\ todos (snd (put_todos id task status e db)) = todos db.
Proof.
  intros Hf Hup Hk.
  destruct task, status; try discriminate Hf;
    unfold put_todos, db_query, execute, set_list;
    cbn [defined escape Datatypes.app List.length Nat.eqb map bind_set negb];
    rewrite Hup; cbn [negb]; rewrite Hk; split; reflexivity.
Qed.

Lemma put_todos_table (id : string) (task status : jsval) (e : env) (db : Db) :
  todos (snd (put_todos id task status e db)) = todos db
  \/ exists k l matched changed,
       key_of (SqlStr id) = inr k
       /\ update_rows (set_list task status) k (rows (todos db))
          = inr (l, matched, changed)
       /\ todos (snd (put_todos id task status e db))
          = {| rows := l; auto_increment := auto_increment (todos db) |}.
Proof.
  destruct (defined task || defined status) eqn:Hf.
  - destruct (storage_up e) eqn:Hup.
    + destruct (key_of (SqlStr id)) as [err|k] eqn:Hk.
      * left; apply (put_todos_bad_key id err); assumption.
      * pose proof (put_todos_run id k task status e db Hf Hup Hk) as H.
        destruct (update_rows (set_list task status) k (rows (todos db)))
          as [err|[[l m] c]] eqn:Hu.
        -- left; inversion H; reflexivity.
        -- right; exists k, l, m, c.
           split; [reflexivity|]; split; [exact Hu|].
           inversion H; reflexivity.
    + left; destruct task, status; try discriminate Hf;
        unfold put_todos, db_query, execute; simpl; rewrite Hup; reflexivity.
  - left; destruct task, status; try discriminate Hf; reflexivity.
Qed.

Lemma delete_todos_run (id : string) (k : option Z) (e : env) (db : Db) :
  storage_up e = true ->
  key_of (SqlStr id) = inr k ->
  fst (delete_todos id e db)
  = res_json (json_changes "deleted"
                (Z.of_nat (List.length (filter (has_key k) (rows (todos db))))))
  /\ todos (snd (delete_todos id e db))
     = {| rows := filter (fun r => negb (has_key k r)) (rows (todos db));
          auto_increment := auto_increment (todos db) |}.
Proof.
  intros Hup Hk; unfold delete_todos, db_query, execute.
  cbn [map escape negb]; rewrite Hup; cbn [negb]; rewrite Hk; auto.
Qed.

(** A path segment that is no numeral makes the storage fail the DELETE. *)
Lemma delete_todos_bad_key (id : string) (err : db_error) (e : env) (db : Db) :
  storage_up e = true ->
  key_of (SqlStr id) = inl err ->
  fst (delete_todos id e db) = res_status_json 400 (json_error (err_message err))
  /\ todos (snd (delete_todos id e db)) = todos db.
Proof.
  intros Hup Hk; unfold delete_todos, db_query, execute.
  cbn [map escape negb]; rewrite Hup; cbn [negb]; rewrite Hk; auto.
Qed.

Lemma delete_todos_table (id : string) (e : env) (db : Db) :
  todos (snd (delete_todos id e db)) = todos db
  \/ exists k,
       key_of (SqlStr id) = inr k
       /\ todos (snd (delete_todos id e db))
          = {| rows := filter (fun r => negb (has_key k r)) (rows (todos db));
               auto_increment := auto_increment (todos db) |}.
Proof.
  destruct (storage_up e) eqn:Hup.
  - destruct (key_of (SqlStr id)) as [err|k] eqn:Hk.
    + left; apply (delete_todos_bad_key id err); assumption.
    + right; exists k; split; [reflexivity|].
      apply delete_todos_run; assumption.
  - left; unfold delete_todos, db_query, execute; simpl; rewrite Hup; reflexivity.
Qed.

Lemma get_todos_table (e : env) (db : Db) : todos (snd (get_todos e db)) = todos db.
Proof.
  unfold get_todos, db_query, execute; simpl; destruct (storage_up e); reflexivity.
Qed.

Lemma post_todos_table (task : jsval) (e : env) (db : Db) :
  todos (snd (post_todos task e db)) = todos db
  \/ exists text,
       truthy task = true
       /\ store_task (escape task) = inr text
       /\ auto_increment (todos db) <= INT_MAX
       /\ todos (snd (post_todos task e db))
          = {| rows := rows (todos db)
                       ++ [{| id := auto_increment (todos db); task := text;
                              status := Some "active";
                              created_at := CURRENT_TIMESTAMP e |}];
               auto_increment := auto_increment (todos db) + 1 |}.
Proof.
  unfold post_todos; destruct (truthy task) eqn:Ht; simpl; [|left; reflexivity].
  unfold db_query, execute; simpl.
  destruct (storage_up e); simpl; [|left; reflexivity].
  destruct (store_task (escape task)) as [err|text]; [left; reflexivity|].
  destruct (INT_MAX <? auto_increment (todos db)) eqn:Hmax; [left; reflexivity|].
  right; exists text; repeat split; apply Z.ltb_ge; assumption.
Qed.

Lemma post_todos_run (task : jsval) (text : string) (e : env) (db : Db) :
  truthy task = true ->
  storage_up e = true ->
  store_task (escape task) = inr text ->
  auto_increment (todos db) <= INT_MAX ->
  fst (post_todos task e db)
  = res_json (json_task "success" (auto_increment (todos db)) task "active" (new_Date e))
  /\ todos (snd (post_todos task e db))
     = {| rows := rows (todos db)
                  ++ [{| id := auto_increment (todos db); task := text;
                         status := Some "active";
                         created_at := CURRENT_TIMESTAMP e |}];
          auto_increment := auto_increment (todos db) + 1 |}.
Proof.
  intros Ht Hup Hs Hmax; apply Z.ltb_ge in Hmax.
  unfold post_todos, db_query, execute; rewrite Ht; simpl.
  rewrite Hup; simpl; rewrite Hs, Hmax; split; reflexivity.
Qed.


(** ** Invariants of the reachable tables *)

Lemma update_rows_keys (set : list (column * sqlval)) (k : option Z) (l l' : list row) :
  Forall2 (fun r r' =>
             if has_key k r then assign_all set r = inr r' else r' = r) l l' ->
  map id l' = map id l.
Proof.
  induction 1 as [|r r' l l' Hr _ IH]; simpl; [reflexivity|].
  f_equal; [|exact IH].
  destruct (has_key k r); [apply assign_all_frame in Hr; tauto | congruence].
Qed.

(** DELETE keeps the keys that remain distinct. *)
Lemma delete_keys_distinct (k : option Z) (l : list row) :
  NoDup (map id l) ->
  NoDup (map id (filter (fun r => negb (has_key k r)) l)).
Proof.
  intros Hnd; induction l as [|a l IH]; [constructor|].
  inversion_clear Hnd as [|? ? Hfresh Hrest].
  cbn [filter]; destruct (negb (has_key k a)); [|exact (IH Hrest)].
  cbn [map]; constructor; [|exact (IH Hrest)].
  intros Hin; apply Hfresh.
  apply in_map_iff in Hin; destruct Hin as (x & Hx & Hin).
  apply filter_In in Hin; apply in_map_iff; exists x; tauto.
Qed.

Lemma primary_key_step (r : request) (e : env) (db : Db) :
  primary_key (todos db) -> primary_key (todos (snd (app r e db))).
Proof.
  intros (Hnd & Hrange & Hpos); destruct r as [|task|id task status|id]; simpl.
  - rewrite get_todos_table; repeat split; assumption.
  - destruct (post_todos_table task e db) as [->|(text & _ & _ & _ & ->)];
      [repeat split; assumption|].
    repeat split; simpl; [| |lia].
    + rewrite map_app; simpl.
      apply NoDup_app; [assumption | constructor; [simpl; tauto | constructor] |].
      intros x Hx [<-|[]]; apply in_map_iff in Hx; destruct Hx as (y & Hy & Hin).
      rewrite Forall_forall in Hrange; specialize (Hrange y Hin); lia.
    + apply Forall_app; split.
      * eapply Forall_impl; [|exact Hrange]; simpl; intros; lia.
      * constructor; [simpl; lia | constructor].
  - destruct (put_todos_table id task status e db)
      as [->|(k & l & m & c & _ & Hu & ->)];
      [repeat split; assumption|].
    apply update_rows_spec in Hu; destruct Hu as (HF & _ & _).
    repeat split; simpl; [| |assumption].
    + rewrite (update_rows_keys _ _ _ _ HF); assumption.
    + clear Hnd; induction HF as [|x x' l0 l0' Hx _ IH]; [constructor|].
      inversion Hrange; subst; constructor; auto.
      destruct (has_key k x);
        [apply assign_all_frame in Hx; destruct Hx as (-> & _); assumption
        | subst; assumption].
  - destruct (delete_todos_table id e db) as [->|(k & _ & ->)]; [repeat split; assumption|].
    repeat split; simpl; [| |assumption].
    + apply (delete_keys_distinct k); assumption.
    + rewrite Forall_forall in *; intros x Hx; apply filter_In in Hx.
      apply Hrange; tauto.
Qed.

Lemma reachable_primary_key (db : Db) : reachable db -> primary_key (todos db).
Proof.
  induction 1 as [|r e db _ IH].
  - repeat split; simpl; try constructor; lia.
  - apply primary_key_step; assumption.
Qed.

Lemma enum_member_range (n : Z) (s : option string) :
  enum_member n = inr s -> s = Some "active" \/ s = Some "completed".
Proof.
  unfold enum_member; destruct (n =? 1); [|destruct (n =? 2)];
    intros H; inversion H; auto.
Qed.

Lemma store_status_range (v : sqlval) (s : option string) :
  store_status v = inr s ->
  s = Some "active" \/ s = Some "completed" \/ s = None.
Proof.
  destruct v as [|b|n|t]; simpl; intros H.
  - inversion H; auto.
  - apply enum_member_range in H; tauto.
  - apply enum_member_range in H; tauto.
  - destruct (String.eqb (lowercase t) "active");
      [|destruct (String.eqb (lowercase t) "completed")]; inversion H; auto.
Qed.

Lemma assign_all_status (set : list (column * sqlval)) (r r' : row) :
  member_or_null r -> assign_all set r = inr r' -> member_or_null r'.
Proof.
  revert r; induction set as [|[c v] set IH]; simpl; intros r Hr H.
  - inversion H; subst; assumption.
  - destruct (assign c v r) as [err|r1] eqn:Ha; [discriminate|].
    apply (IH r1); [|assumption].
    destruct c; simpl in Ha.
    + destruct (store_task v); inversion Ha; subst; exact Hr.
    + destruct (store_status v) as [err|s] eqn:Hs; inversion Ha; subst.
      apply store_status_range in Hs; exact Hs.
Qed.

Lemma member_or_null_step (r : request) (e : env) (db : Db) :
  Forall member_or_null (rows (todos db)) ->
  Forall member_or_null (rows (todos (snd (app r e db)))).
Proof.
  intros Hinv; destruct r as [|task|id task status|id]; simpl.
  - rewrite get_todos_table; assumption.
  - destruct (post_todos_table task e db) as [->|(text & _ & _ & _ & ->)];
      [assumption|].
    simpl; apply Forall_app; split; [assumption|].
    constructor; [left; reflexivity | constructor].
  - destruct (put_todos_table id task status e db)
      as [->|(k & l & m & c & _ & Hu & ->)];
      [assumption|].
    apply update_rows_spec in Hu; destruct Hu as (HF & _ & _); simpl.
    induction HF as [|x x' l0 l0' Hx _ IH]; [constructor|].
    inversion Hinv; subst; constructor; auto.
    destruct (has_key k x);
      [eapply assign_all_status; eassumption | subst; assumption].
  - destruct (delete_todos_table id e db) as [->|(k & _ & ->)]; [assumption|].
    simpl; rewrite Forall_forall in *; intros x Hx; apply filter_In in Hx.
    apply Hinv; tauto.
Qed.

Lemma reachable_member_or_null (db : Db) :
  reachable db -> Forall member_or_null (rows (todos db)).
Proof.
  induction 1 as [|r e db _ IH]; [constructor|].
  apply member_or_null_step; assumption.
Qed.

(** ** ORDER BY created_at DESC *)

Lemma insert_desc_perm (r : row) (l : list row) :
  Permutation (r :: l) (insert_desc r l).
Proof.
  induction l as [|x l IH]; simpl; [apply Permutation_refl|].
  destruct (created_at x <=? created_at r); [apply Permutation_refl|].
  eapply perm_trans; [apply perm_swap|]; apply perm_skip; exact IH.
Qed.

Lemma insert_desc_sorted (r : row) (l : list row) :
  StronglySorted newest_first l -> StronglySorted newest_first (insert_desc r l).
Proof.
  induction 1 as [|x l Hs IH Hx]; simpl.
  - repeat constructor.
  - destruct (created_at x <=? created_at r) eqn:Hle.
    + apply Z.leb_le in Hle; constructor; [constructor; assumption|].
      constructor; [exact Hle|].
      eapply Forall_impl; [|exact Hx]; unfold newest_first; intros; lia.
    + apply Z.leb_gt in Hle; constructor; [exact IH|].
      eapply Permutation_Forall; [apply insert_desc_perm|].
      constructor; [unfold newest_first; lia | exact Hx].
Qed.

Lemma order_by_perm (l : list row) : Permutation l (order_by_created_at_desc l).
Proof.
  induction l as [|r l IH]; simpl; [constructor|].
  eapply perm_trans; [apply perm_skip; exact IH | apply insert_desc_perm].
Qed.

Lemma order_by_sorted (l : list row) :
  StronglySorted newest_first (order_by_created_at_desc l).
Proof.
  induction l as [|r l IH]; simpl; [constructor | apply insert_desc_sorted; exact IH].
Qed.

(** ** The status button *)

Lemma update_rows_status (i : Z) (s : string) (l : list row) :
  s = "active" \/ s = "completed" ->
  exists matched changed,
    update_rows [(col_status, SqlStr s)] (Some i) l
    = inr (map (set_status i s) l, matched, changed).
Proof.
  intros Hs.
  assert (store_status (SqlStr s) = inr (Some s)) as Hst
    by (destruct Hs as [-> | ->]; reflexivity).
  induction l as [|r l (m & c & IH)].
  - exists 0, 0; reflexivity.
  - cbn [update_rows map]; rewrite IH.
    assert (set_status i s r
            = if has_key (Some i) r
              then {| id := id r; task := task r; status := Some s;
                      created_at := created_at r |}
              else r) as -> by reflexivity.
    destruct (has_key (Some i) r); [|eauto].
    cbn [assign_all assign]; rewrite Hst; eauto.
Qed.

Lemma toggleStatus_opposite (i : Z) (currentStatus : jsval) :
  toggleStatus i currentStatus
  = PUT (decimal i) JUndefined (JStr (opposite currentStatus)).
Proof. reflexivity. Qed.

Lemma opposite_member (v : jsval) : opposite v = "active" \/ opposite v = "completed".
Proof. unfold opposite; destruct (strict_eq v (JStr "active")); auto. Qed.

Lemma click_status_found (i : Z) (e : env) (db : Db) (r : row) :
  storage_up e = true ->
  find (has_key (Some i)) (rows (todos db)) = Some r ->
  todos (click_status i e db)
  = {| rows := map (set_status i (opposite (todo_status r))) (rows (todos db));
       auto_increment := auto_increment (todos db) |}.
Proof.
  intros Hup Hf; unfold click_status; rewrite Hf.
  assert (id r = i) as Hi by (apply find_some in Hf; apply has_key_Some; tauto).
  rewrite toggleStatus_opposite, Hi; simpl app.
  pose proof (put_todos_run (decimal i) (Some i) JUndefined
                (JStr (opposite (todo_status r))) e db
                eq_refl Hup (key_of_decimal i)) as H.
  destruct (update_rows_status i _ (rows (todos db)) (opposite_member (todo_status r)))
    as (m & c & Hu).
  unfold set_list in H; cbn [defined escape Datatypes.app] in H; rewrite Hu in H.
  inversion H; reflexivity.
Qed.

Lemma find_set_status (i : Z) (s : string) (l : list row) :
  find (has_key (Some i)) (map (set_status i s) l)
  = option_map (set_status i s) (find (has_key (Some i)) l).
Proof.
  induction l as [|r l IH]; simpl; [reflexivity|].
  unfold set_status at 1 3; simpl.
  destruct (id r =? i) eqn:Hk; simpl; rewrite Hk; [reflexivity | exact IH].
Qed.

Lemma find_unique (i : Z) (l : list row) (r : row) :
  NoDup (map id l) -> In r l -> id r = i ->
  find (has_key (Some i)) l = Some r
  /\ forall x, In x l -> id x = i -> x = r.
Proof.
  intros Hnd Hin Hi.
  assert (forall x, In x l -> id x = i -> x = r) as Huniq.
  { clear - Hnd Hin Hi; induction l as [|a l IH]; [contradiction|].
    simpl in Hnd; inversion Hnd as [|? ? Hn Hd]; subst.
    intros x Hx Hxi; destruct Hin as [->|Hin], Hx as [->|Hx]; auto.
    - exfalso; apply Hn; rewrite <- Hxi; apply in_map; assumption.
    - exfalso; apply Hn; rewrite Hxi; apply in_map; assumption. }
  split; [|exact Huniq].
  destruct (find (has_key (Some i)) l) as [x|] eqn:Hf.
  - apply find_some in Hf; destruct Hf as [Hx Hk].
    f_equal; apply Huniq; [assumption | apply has_key_Some; assumption].
  - exfalso; apply (find_none _ _ Hf) in Hin.
    apply has_key_Some_false in Hin; contradiction.
Qed.

(** ** POST /todos *)

Lemma falsy_values (v : jsval) :
  truthy v = false <-> In v [JUndefined; JNull; JStr ""; JNum 0; JBool false].
Proof.
  split.
  - destruct v as [| |b|n|s]; simpl; intros H; auto.
    + destruct b; [discriminate | tauto].
    + apply negb_false_iff, Z.eqb_eq in H; subst; tauto.
    + destruct s; [tauto | discriminate].
  - simpl; intros [<-|[<-|[<-|[<-|[<-|[]]]]]]; reflexivity.
Qed.

Lemma post_todos_falsy (task : jsval) (e : env) (db : Db) :
  truthy task = false ->
  post_todos task e db
  = (res_status_json 400 (json_error (Literal "Task content is required")), db).
Proof. intros H; unfold post_todos; rewrite H; reflexivity. Qed.

Lemma trimStart_whitespace (s : string) :
  only_whitespace s = true -> trimStart s = "".
Proof.
  induction s as [|c s IH]; simpl; [reflexivity|].
  intros H; apply andb_true_iff in H; destruct H as [Hc Hs].
  rewrite Hc; auto.
Qed.

Lemma trim_whitespace (s : string) : only_whitespace s = true -> trim s = "".
Proof. intros H; unfold trim; rewrite trimStart_whitespace; auto. Qed.

(** C10: POST /todos with a falsy task field (absent, null, the empty string,
    the number 0 or false) is answered with 400 "Task content is required",
    whichever of them it is, and [db.query] is not called: the connection,
    with its record of queries, is the one before the request. *)
Theorem post_falsy_task_rejected (task : jsval) (e : env) (db : Db) :
  In task [JUndefined; JNull; JStr ""; JNum 0; JBool false] ->
  post_todos task e db
  = (res_status_json 400 (json_error (Literal "Task content is required")), db).
Proof. intros H; apply post_todos_falsy, falsy_values; exact H. Qed.

Lemma post_falsy_task_rejected_witness :
  In (JNum 0) [JUndefined; JNull; JStr ""; JNum 0; JBool false]
  /\ post_todos (JNum 0) sample_env one_task_db
     = (res_status_json 400 (json_error (Literal "Task content is required")),
        one_task_db).
Proof.
  assert (In (JNum 0) [JUndefined; JNull; JStr ""; JNum 0; JBool false]) as H
    by (simpl; tauto).
  split; [exact H | exact (post_falsy_task_rejected (JNum 0) sample_env one_task_db H)].
Defined.

(** C1, as the specification states it, fails: the handler stores a text made
    of one space.  On a fresh database, POST { task: " " } is answered with
    200 and the table holds the row. *)
Lemma post_whitespace_text_stored :
  only_whitespace " " = true
  /\ fst (post_todos (JStr " ") sample_env initial_db)
     = res_json (json_task "success" 1 (JStr " ") "active" 1762151696042)
  /\ rows (todos (snd (post_todos (JStr " ") sample_env initial_db)))
     = [{| id := 1; task := " "; status := Some "active";
           created_at := 1762151696000 |}].
Proof. repeat split. Qed.

(** C1, amended: a create request whose task text is empty fails with a
    ValidationError (400) and the connection is left as it was, no query
    sent and no row added.  A text of white space only is stopped in the
    client: [addTodo] trims the input and sends no request, so the store is
    unchanged. *)
Theorem create_blank_text_rejected (input : string) (e : env) (db : Db) :
  only_whitespace input = true ->
  ValidationError (fst (post_todos (JStr "") e db))
  /\ snd (post_todos (JStr "") e db) = db
  /\ addTodo input = None
  /\ send (addTodo input) e db = db.
Proof.
  intros H; repeat split.
  - exists "Task content is required"; reflexivity.
  - unfold addTodo; rewrite (trim_whitespace input H); reflexivity.
  - unfold addTodo; rewrite (trim_whitespace input H); reflexivity.
Qed.

Lemma create_blank_text_rejected_witness :
  only_whitespace "   " = true
  /\ addTodo "   " = None
  /\ snd (post_todos (JStr "") sample_env one_task_db) = one_task_db.
Proof.
  assert (only_whitespace "   " = true) as H by reflexivity.
  pose proof (create_blank_text_rejected "   " sample_env one_task_db H)
    as (_ & Hs & Ha & _).
  exact (conj H (conj Ha Hs)).
Defined.

Lemma varchar255_fits (s : string) :
  (String.length s <= 255)%nat -> varchar255 s = inr s.
Proof.
  intros H; unfold varchar255.
  destruct (String.length s <=? 255)%nat eqn:Hl; [reflexivity|].
  apply Nat.leb_gt in Hl; lia.
Qed.




(** A text of one letter and 300 spaces is inserted, cut to its first 255
    characters, and the answer carries all of it. *)
Example post_cuts_trailing_spaces :
  let text := String "a" (string_of_list_ascii (repeat " "%char 300)) in
  status_code (fst (post_todos (JStr text) sample_env initial_db)) = 200
  /\ map (fun r => String.length (task r))
       (rows (todos (snd (post_todos (JStr text) sample_env initial_db))))
     = [255%nat].
Proof. split; reflexivity. Qed.

(** ** The invariants of the data model *)

Lemma decimal_nonempty (n : Z) : decimal n <> "".
Proof.
  unfold decimal, NilZero.string_of_int, NilZero.string_of_uint.
  destruct (Z.to_int n) as [d|d]; [|discriminate].
  destruct d; simpl; discriminate.
Qed.

Lemma varchar255_nonempty (s t : string) :
  varchar255 s = inr t -> s <> "" -> t <> "".
Proof.
  unfold varchar255; intros H Hs.
  destruct (String.length s <=? 255)%nat; [inversion H; subst; exact Hs|].
  destruct (all_blank (skip 255 s)); [|discriminate].
  inversion H; subst; destruct s; [contradiction | discriminate].
Qed.

Lemma store_task_nonempty (v : sqlval) (t : string) :
  store_task v = inr t -> v <> SqlStr "" -> t <> "".
Proof.
  destruct v as [|b|n|s]; simpl; intros H Hv.
  - discriminate.
  - inversion H; destruct b; discriminate.
  - eapply varchar255_nonempty; [exact H | apply decimal_nonempty].
  - eapply varchar255_nonempty; [exact H | intros ->; apply Hv; reflexivity].
Qed.

Lemma assign_all_task_nonempty (set : list (column * sqlval)) (r r' : row) :
  ~ In (col_task, SqlStr "") set ->
  task r <> "" -> assign_all set r = inr r' -> task r' <> "".
Proof.
  revert r; induction set as [|[c v] set IH]; simpl; intros r Hset Hr H.
  - inversion H; subst; exact Hr.
  - destruct (assign c v r) as [err|r1] eqn:Ha; [discriminate|].
    apply (IH r1); [tauto | | exact H].
    destruct c; simpl in Ha.
    + destruct (store_task v) as [err|t] eqn:Hs; inversion Ha; subst; simpl.
      apply (store_task_nonempty v t Hs); intros ->; tauto.
    + destruct (store_status v); inversion Ha; subst; exact Hr.
Qed.

(** Every request other than a PUT whose [task] is the empty string keeps
    the texts of the table non-empty. *)
Lemma task_nonempty_step (r : request) (e : env) (db : Db) :
  (forall id status, r <> PUT id (JStr "") status) ->
  Forall (fun x => task x <> "") (rows (todos db)) ->
  Forall (fun x => task x <> "") (rows (todos (snd (app r e db)))).
Proof.
  intros Hr Hinv; destruct r as [|task|id task status|id]; simpl.
  - rewrite get_todos_table; assumption.
  - destruct (post_todos_table task e db) as [->|(text & Ht & Hs & _ & ->)];
      [assumption|].
    simpl; apply Forall_app; split; [assumption|].
    constructor; [simpl | constructor].
    apply (store_task_nonempty _ _ Hs); intros Hv.
    destruct task; simpl in Hv; try discriminate Hv.
    inversion Hv; subst; discriminate Ht.
  - destruct (put_todos_table id task status e db)
      as [->|(k & l & m & c & _ & Hu & ->)];
      [assumption|].
    apply update_rows_spec in Hu; destruct Hu as (HF & _ & _); simpl.
    assert (~ In (col_task, SqlStr "") (set_list task status)) as Hset.
    { unfold set_list; intros Hin; apply in_app_or in Hin.
      destruct Hin as [Hin|Hin].
      - destruct (defined task); simpl in Hin; [|contradiction].
        destruct Hin as [Hin|[]]; inversion Hin as [Hesc].
        destruct task; simpl in Hesc; try discriminate Hesc.
        inversion Hesc; subst; apply (Hr id status); reflexivity.
      - destruct (defined status); simpl in Hin; [|contradiction].
        destruct Hin as [Hin|[]]; discriminate. }
    induction HF as [|x x' l0 l0' Hx _ IH]; [constructor|].
    inversion Hinv; subst; constructor; auto.
    destruct (has_key k x);
      [eapply assign_all_task_nonempty; eassumption | subst; assumption].
  - destruct (delete_todos_table id e db) as [->|(k & _ & ->)]; [assumption|].
    simpl; rewrite Forall_forall in *; intros x Hx; apply filter_In in Hx.
    apply Hinv; tauto.
Qed.

(** The client sends no update for a blank edit: [updateTodo] only refreshes
    the view. *)
Lemma updateTodo_blank (id : Z) (newTask : string) :
  only_whitespace newTask = true -> updateTodo id newTask = None.
Proof.
  intros H; unfold updateTodo; rewrite (trim_whitespace newTask H); reflexivity.
Qed.

(** C2: PUT stores an empty task text.  After POST { task: "Buy milk" } on a
    fresh database, PUT /todos/1 { task: "" } is answered with
    { message: "success", changes: 1 } and the row's text is empty, in a state
    reached through the public operations alone. *)
Theorem put_stores_empty_task :
  let db := snd (app (PUT "1" (JStr "") JUndefined) sample_env one_task_db) in
  reachable db
  /\ fst (app (PUT "1" (JStr "") JUndefined) sample_env one_task_db)
     = res_json (json_changes "success" 1)
  /\ rows (todos db)
     = [{| id := 1; task := ""; status := Some "active";
           created_at := 1762151696000 |}].
Proof.
  repeat split.
  apply reachable_request, reachable_request, reachable_initial.
Qed.

(** C8, as the specification states it, fails: the status column is nullable
    and a JSON null counts as a supplied field.  After POST { task: "Buy
    milk" }, PUT /todos/1 { status: null } is answered with changes: 1 and the
    row's status is NULL, neither active nor completed. *)
Lemma put_stores_null_status :
  let db := snd (app (PUT "1" JUndefined JNull) sample_env one_task_db) in
  reachable db
  /\ fst (app (PUT "1" JUndefined JNull) sample_env one_task_db)
     = res_json (json_changes "success" 1)
  /\ map status (rows (todos db)) = [None]
  /\ ~ Forall (fun r => status r = Some "active" \/ status r = Some "completed")
         (rows (todos db)).
Proof.
  repeat split.
  - apply reachable_request, reachable_request, reachable_initial.
  - intros H; inversion H as [|r l [Hr|Hr] _]; discriminate Hr.
Qed.

Lemma put_todos_error_keeps_table (id : string) (task status : jsval)
    (e : env) (db : Db) :
  status_code (fst (put_todos id task status e db)) = 400 ->
  todos (snd (put_todos id task status e db)) = todos db.
Proof.
  intros H400.
  destruct (defined task || defined status) eqn:Hf;
    [|destruct task, status; try discriminate Hf; reflexivity].
  destruct (storage_up e) eqn:Hup;
    [|destruct task, status; try discriminate Hf;
      unfold put_todos, db_query, execute; simpl; rewrite Hup; reflexivity].
  destruct (key_of (SqlStr id)) as [err|k] eqn:Hk;
    [apply (put_todos_bad_key id err); assumption|].
  pose proof (put_todos_run id k task status e db Hf Hup Hk) as H.
  destruct (update_rows (set_list task status) k (rows (todos db)))
    as [err|[[l m] c]]; apply pair_equal_spec in H; destruct H as [Hres Htab].
  - exact Htab.
  - rewrite Hres in H400; discriminate H400.
Qed.

(** C8, amended: in every state reachable through the public operations,
    every task's status is active, completed or NULL.  The column is
    nullable and a JSON null is a supplied field: an update whose only field
    is a null status stores NULL in the rows with the id.  Update keeps the
    invariant for every status value a request supplies, and an update that
    is answered with an error leaves the table as it was. *)
Theorem status_member_or_null (db : Db) :
  reachable db ->
  Forall member_or_null (rows (todos db))
  /\ (forall id task status e,
        Forall member_or_null (rows (todos (snd (put_todos id task status e db))))
        /\ (status_code (fst (put_todos id task status e db)) = 400 ->
            todos (snd (put_todos id task status e db)) = todos db))
  /\ (forall id k e,
        storage_up e = true ->
        key_of (SqlStr id) = inr k ->
        rows (todos (snd (put_todos id JUndefined JNull e db)))
        = map (fun r => if has_key k r
                        then {| id := MySQL.id r; task := task r; status := None;
                                created_at := created_at r |}
                        else r)
            (rows (todos db))).
Proof.
  intros Hreach; split; [|split].
  - apply reachable_member_or_null; exact Hreach.
  - intros id task status e; split.
    + apply (member_or_null_step (PUT id task status) e db).
      apply reachable_member_or_null; exact Hreach.
    + apply put_todos_error_keeps_table.
  - intros id k e Hup Hk.
    pose proof (put_todos_run id k JUndefined JNull e db eq_refl Hup Hk) as H.
    unfold set_list in H; cbn [defined escape Datatypes.app] in H.
    rewrite (update_rows_total [(col_status, SqlNull)]
               (fun r => {| id := MySQL.id r; task := task r; status := None;
                            created_at := created_at r |}) k _
               (fun r => eq_refl)) in H.
    apply pair_equal_spec in H; destruct H as [_ ->]; reflexivity.
Qed.

Lemma status_member_or_null_witness :
  reachable one_task_db
  /\ Forall member_or_null
       (rows (todos (snd (put_todos "1" JUndefined (JStr "done") sample_env
                            one_task_db))))
  /\ rows (todos (snd (put_todos "1" JUndefined JNull sample_env one_task_db)))
     = [{| id := 1; task := "Buy milk"; status := None;
           created_at := 1762151696000 |}].
Proof.
  assert (reachable one_task_db) as Hreach
    by (apply reachable_request, reachable_initial).
  destruct (status_member_or_null one_task_db Hreach) as (_ & Hput & Hnull).
  split; [exact Hreach|]; split.
  - exact (proj1 (Hput "1" JUndefined (JStr "done") sample_env)).
  - exact (Hnull "1" (Some 1) sample_env eq_refl eq_refl).
Defined.

(** ** GET /todos *)

(** C6: while the storage answers, GET /todos is answered with 200 and all the
    rows of the table, newest first by [created_at]; it fails exactly when the
    storage is unavailable, and then passes the storage's error on with 400.
    The table is the same afterwards. *)
Theorem get_lists_all_newest_first (e : env) (db : Db) :
  (if storage_up e then
     exists data,
       fst (get_todos e db) = res_json (json_data "success" (ResultRows data))
       /\ Permutation (rows (todos db)) data
       /\ StronglySorted newest_first data
   else
     fst (get_todos e db)
     = res_status_json 400 (json_error (err_message PROTOCOL_CONNECTION_LOST)))
  /\ (StorageError (fst (get_todos e db)) <-> storage_up e = false)
  /\ todos (snd (get_todos e db)) = todos db.
Proof.
  unfold get_todos, db_query, execute; simpl.
  destruct (storage_up e); simpl; split; [|split| |split]; try reflexivity.
  - exists (order_by_created_at_desc (rows (todos db))).
    split; [reflexivity | split; [apply order_by_perm | apply order_by_sorted]].
  - split; [intros [H _]; discriminate H | discriminate].
  - split; [reflexivity|].
    intros _; split; [reflexivity | exists PROTOCOL_CONNECTION_LOST; reflexivity].
Qed.

(** ** PUT /todos/:id and DELETE /todos/:id *)

(** C7: a PUT whose body has neither [task] nor [status] is answered with the
    ValidationError 400 "No fields to update", and [db.query] is not called:
    the connection, with its table and its record of queries, is unchanged. *)
Theorem put_without_fields_rejected (id : string) (e : env) (db : Db) :
  put_todos id JUndefined JUndefined e db
  = (res_status_json 400 (json_error (Literal "No fields to update")), db)
  /\ ValidationError (fst (put_todos id JUndefined JUndefined e db)).
Proof.
  split; [reflexivity|].
  split; [reflexivity | exists "No fields to update"; reflexivity].
Qed.

Lemma set_list_names (task status : jsval) :
  (task = JUndefined -> names col_task (set_list task status) = false)
  /\ (status = JUndefined -> names col_status (set_list task status) = false).
Proof.
  split; intros ->; unfold set_list; simpl.
  - destruct (defined status); reflexivity.
  - destruct (defined task); reflexivity.
Qed.

Lemma untouched_refl (i : Z) (task status : jsval) (l : list row) :
  Forall2 (untouched i task status) l l.
Proof. induction l; constructor; auto; unfold untouched; tauto. Qed.

(** The frame of a PUT whose body fields are absent or scalars (null, a
    boolean, an integer, a text), for a path that spells the key [i]: each
    row stays in its place with its key and its [created_at]; the text is as
    before when the body has no [task], the status is as before when the body
    has no [status]; a row with another key is as before altogether; the key
    counter is as before.  (A field that holds an object is expanded by the
    driver into assignments of its own, which breaks this frame; such fields
    are outside the model.) *)
Theorem put_changes_only_given_fields (id : string) (i : Z) (task status : jsval)
    (e : env) (db : Db) :
  key_of (SqlStr id) = inr (Some i) ->
  Forall2 (untouched i task status)
    (rows (todos db)) (rows (todos (snd (put_todos id task status e db))))
  /\ auto_increment (todos (snd (put_todos id task status e db)))
     = auto_increment (todos db).
Proof.
  intros Hkey.
  destruct (put_todos_table id task status e db)
    as [->|(k & l & m & c & Hk & Hu & ->)];
    [split; [apply untouched_refl | reflexivity]|].
  rewrite Hkey in Hk; inversion Hk; subst k; clear Hk.
  split; [|reflexivity]; simpl.
  apply update_rows_spec in Hu; destruct Hu as (HF & _ & _).
  destruct (set_list_names task status) as [Hnt Hns].
  induction HF as [|r r' l0 l0' Hr _ IH]; constructor; [|exact IH].
  destruct (has_key (Some i) r) eqn:Hk.
  - apply assign_all_frame in Hr; destruct Hr as (Hi & Hc & Ht & Hs).
    apply has_key_Some in Hk; unfold untouched; repeat split; auto.
    intros Hne; contradiction.
  - subst r'; unfold untouched; tauto.
Qed.

Lemma put_changes_only_given_fields_witness :
  key_of (SqlStr "1") = inr (Some 1)
  /\ Forall2 (untouched 1 (JStr "Buy bread") JUndefined)
       (rows (todos one_task_db))
       (rows (todos (snd (put_todos "1" (JStr "Buy bread") JUndefined sample_env
                            one_task_db)))).
Proof.
  split; [reflexivity|].
  exact (proj1 (put_changes_only_given_fields "1" 1 (JStr "Buy bread") JUndefined
                  sample_env one_task_db eq_refl)).
Defined.

(** Whatever the fields hold, the handler hands them to the driver as they
    are: a PUT with a field present calls [db.query] with the body's values,
    unexamined, followed by the path segment. *)
Lemma put_hands_fields_to_the_driver (id : string) (task status : jsval)
    (e : env) (db : Db) :
  defined task || defined status = true ->
  queries (snd (put_todos id task status e db))
  = queries db
    ++ [(UPDATE_todos_SET
           ((if defined task then [col_task] else [])
            ++ (if defined status then [col_status] else [])),
         (if defined task then [task] else [])
         ++ (if defined status then [status] else []) ++ [JStr id])].
Proof.
  intros Hf; destruct task, status; try discriminate Hf;
    unfold put_todos; cbn [defined Datatypes.app List.length Nat.eqb];
    rewrite db_query_run; reflexivity.
Qed.


Lemma Forall2_In_l {A B : Type} (R : A -> B -> Prop) (l : list A) (l' : list B) (x : A) :
  Forall2 R l l' -> In x l -> exists y, In y l' /\ R x y.
Proof.
  induction 1 as [|a b l l' Hab _ IH]; intros Hin; [contradiction|].
  destruct Hin as [<-|Hin]; [exists b; split; [left; reflexivity | exact Hab]|].
  destruct (IH Hin) as (y & Hy & Hxy); exists y; split; [right|]; assumption.
Qed.



(** A row that is found but already has the values counts as not changed:
    setting the status of a fresh task to active is answered with changes: 0. *)
Example put_same_status_reports_zero :
  fst (put_todos "1" JUndefined (JStr "active") sample_env one_task_db)
  = res_json (json_changes "success" 0).
Proof. reflexivity. Qed.


(** C9: in a table whose keys are distinct, for a row whose status is active
    or completed, two clicks on its status button, each made in a view that
    shows the table as it then is and each reaching the storage, leave the
    table as it was; after the first click the row has the other status. *)
Theorem status_toggle_twice_restores (r : row) (e1 e2 : env) (db : Db) :
  NoDup (map id (rows (todos db))) ->
  In r (rows (todos db)) ->
  status r = Some "active" \/ status r = Some "completed" ->
  storage_up e1 = true ->
  storage_up e2 = true ->
  In (set_status (id r) (opposite (todo_status r)) r)
     (rows (todos (click_status (id r) e1 db)))
  /\ todos (click_status (id r) e2 (click_status (id r) e1 db)) = todos db.
Proof.
  intros Hnd Hin Hst Hup1 Hup2.
  destruct (find_unique (id r) _ r Hnd Hin eq_refl) as [Hfind Huniq].
  pose proof (click_status_found (id r) e1 db r Hup1 Hfind) as H1.
  set (db1 := click_status (id r) e1 db) in *.
  set (f1 := set_status (id r) (opposite (todo_status r))) in *.
  split; [rewrite H1; simpl; apply in_map; exact Hin|].
  assert (find (has_key (Some (id r))) (rows (todos db1)) = Some (f1 r)) as Hfind1
    by (rewrite H1; simpl; unfold f1; rewrite find_set_status, Hfind; reflexivity).
  rewrite (click_status_found (id r) e2 db1 (f1 r) Hup2 Hfind1), H1; simpl.
  etransitivity; [|apply table_eta]; f_equal.
  etransitivity; [|apply map_id].
  rewrite map_map; apply map_ext_in; intros x Hx.
  unfold f1, set_status; simpl; rewrite Z.eqb_refl.
  destruct (id x =? id r) eqn:Hk; simpl; rewrite Hk; [|reflexivity].
  apply Z.eqb_eq in Hk; rewrite (Huniq x Hx Hk).
  unfold todo_status; simpl.
  destruct r as [i t s c]; simpl in *.
  destruct Hst as [-> | ->]; reflexivity.
Qed.

Lemma status_toggle_twice_restores_witness :
  NoDup (map id (rows (todos one_task_db)))
  /\ todos (click_status 1 sample_env (click_status 1 sample_env one_task_db))
     = todos one_task_db.
Proof.
  assert (NoDup (map id (rows (todos one_task_db)))) as Hnd
    by (constructor; [simpl; tauto | constructor]).
  split; [exact Hnd|].
  exact (proj2 (status_toggle_twice_restores
                  {| id := 1; task := "Buy milk"; status := Some "active";
                     created_at := 1762151696000 |}
                  sample_env sample_env one_task_db
                  Hnd (or_introl eq_refl) (or_introl eq_refl) eq_refl eq_refl)).
Defined.

(** * Further properties of the handlers *)

(** ** Answers and calls of [db.query] *)

Lemma execute_down (e : env) (sql : statement) (values : list sqlval) (t : table) :
  storage_up e = false -> execute e sql values t = (inl PROTOCOL_CONNECTION_LOST, t).
Proof. intros H; unfold execute; rewrite H; reflexivity. Qed.

(** Which requests the handlers turn down before they call [db.query]. *)
Lemma app_invalid_or_queried (r : request) (e : env) (db : Db) :
  (ValidationError (fst (app r e db)) /\ snd (app r e db) = db)
  \/ exists sql values callback,
       app r e db = db_query sql values callback e db
       /\ forall outcome,
            callback outcome
            = match outcome with
              | inl err => res_status_json 400 (json_error (err_message err))
              | inr _ => callback outcome
              end
            /\ (forall res, outcome = inr res ->
                status_code (callback outcome) = 200
                /\ forall m, body (callback outcome) <> json_error m).
Proof.
  destruct r as [|task|id task status|id]; simpl.
  - right; do 3 eexists; split; [reflexivity|].
    intros [err|res]; split; try reflexivity; try discriminate.
    intros res' _; split; [reflexivity | discriminate].
  - unfold post_todos; destruct (truthy task).
    + right; do 3 eexists; split; [reflexivity|].
      intros [err|res]; split; try reflexivity; try discriminate.
      intros res' _; split; [reflexivity | discriminate].
    + left; split; [|reflexivity].
      split; [reflexivity | eexists; reflexivity].
  - destruct (defined task || defined status) eqn:Hf.
    + right; destruct task, status; try discriminate Hf;
        (do 3 eexists; split; [reflexivity|];
         intros [err|res]; split; try reflexivity; try discriminate;
         intros res' _; split; [reflexivity | discriminate]).
    + left; destruct task, status; try discriminate Hf.
      split; [|reflexivity].
      split; [reflexivity | eexists; reflexivity].
  - right; do 3 eexists; split; [reflexivity|].
    intros [err|res]; split; try reflexivity; try discriminate.
    intros res' _; split; [reflexivity | discriminate].
Qed.

(** X1: every answer is either 200 with a body that is no error, or 400 with
    an error body, which is a ValidationError or a StorageError; no handler
    answers with another status. *)
Theorem answers_are_200_or_400 (r : request) (e : env) (db : Db) :
  (status_code (fst (app r e db)) = 200
   /\ forall m, body (fst (app r e db)) <> json_error m)
  \/ (status_code (fst (app r e db)) = 400
      /\ (ValidationError (fst (app r e db)) \/ StorageError (fst (app r e db)))).
Proof.
  destruct (app_invalid_or_queried r e db)
    as [[Hv _]|(sql & values & callback & -> & Hcb)].
  - right; split; [apply Hv | left; exact Hv].
  - rewrite db_query_run; simpl.
    destruct (fst (execute e sql (map escape values) (todos db))) as [err|res] eqn:Hx.
    + right; destruct (Hcb (inl err)) as [-> _].
      split; [reflexivity | right; split; [reflexivity | exists err; reflexivity]].
    + left; exact (proj2 (Hcb (inr res)) res eq_refl).
Qed.

(** X2: a request that fails validation is answered without any call of
    [db.query] and leaves the connection as it was; every other request
    calls [db.query] exactly once. *)
Theorem one_query_unless_invalid (r : request) (e : env) (db : Db) :
  (ValidationError (fst (app r e db)) /\ snd (app r e db) = db)
  \/ (~ ValidationError (fst (app r e db))
      /\ exists call, queries (snd (app r e db)) = queries db ++ [call]).
Proof.
  destruct (app_invalid_or_queried r e db)
    as [Hv|(sql & values & callback & Hq & Hcb)]; [left; exact Hv|].
  right; rewrite Hq, db_query_run; simpl; split; [|eexists; reflexivity].
  intros [Hcode [s Hbody]].
  destruct (fst (execute e sql (map escape values) (todos db))) as [err|res].
  - destruct (Hcb (inl err)) as [Hc _]; rewrite Hc in Hbody; discriminate Hbody.
  - destruct (proj2 (Hcb (inr res)) res eq_refl) as [H200 _].
    rewrite H200 in Hcode; discriminate Hcode.
Qed.

(** X3: while the storage cannot be reached, every request is answered with
    400 and the table stays as it was. *)
Theorem storage_down_changes_nothing (r : request) (e : env) (db : Db) :
  storage_up e = false ->
  status_code (fst (app r e db)) = 400
  /\ todos (snd (app r e db)) = todos db.
Proof.
  intros Hdown.
  destruct (app_invalid_or_queried r e db)
    as [[[Hc _] ->]|(sql & values & callback & -> & Hcb)]; [auto|].
  rewrite db_query_run, execute_down by exact Hdown; simpl.
  destruct (Hcb (inl PROTOCOL_CONNECTION_LOST)) as [-> _]; auto.
Qed.

Lemma storage_down_changes_nothing_witness :
  storage_up {| storage_up := false; CURRENT_TIMESTAMP := 0; new_Date := 0 |} = false
  /\ todos (snd (app (DELETE "1")
                   {| storage_up := false; CURRENT_TIMESTAMP := 0; new_Date := 0 |}
                   one_task_db))
     = todos one_task_db.
Proof.
  split; [reflexivity|].
  exact (proj2 (storage_down_changes_nothing (DELETE "1")
                  {| storage_up := false; CURRENT_TIMESTAMP := 0; new_Date := 0 |}
                  one_task_db eq_refl)).
Defined.

(** ** DELETE /todos/:id *)

(** X4: once the storage has carried out a DELETE for a path that spells a
    key, no row has the key, every row with another key is still there,
    nothing else is, and the key counter is as before. *)
Theorem delete_removes_the_key_only (id : string) (i : Z) (e : env) (db : Db) :
  storage_up e = true ->
  key_of (SqlStr id) = inr (Some i) ->
  (forall r, In r (rows (todos (snd (delete_todos id e db))))
             <-> In r (rows (todos db)) /\ MySQL.id r <> i)
  /\ auto_increment (todos (snd (delete_todos id e db))) = auto_increment (todos db).
Proof.
  intros Hup Hk; destruct (delete_todos_run id _ e db Hup Hk) as [_ ->]; simpl.
  split; [|reflexivity].
  intros r; rewrite filter_In, negb_true_iff, Z.eqb_neq; tauto.
Qed.

Lemma delete_removes_the_key_only_witness :
  storage_up sample_env = true
  /\ key_of (SqlStr "1") = inr (Some 1)
  /\ forall r, In r (rows (todos (snd (delete_todos "1" sample_env one_task_db))))
               <-> In r (rows (todos one_task_db)) /\ id r <> 1.
Proof.
  split; [reflexivity|]; split; [reflexivity|].
  exact (proj1 (delete_removes_the_key_only "1" 1 sample_env one_task_db
                  eq_refl eq_refl)).
Defined.

Lemma filter_twice (k : option Z) (l : list row) :
  filter (fun r => negb (has_key k r)) (filter (fun r => negb (has_key k r)) l)
  = filter (fun r => negb (has_key k r)) l.
Proof.
  apply filter_all; intros x Hx; apply filter_In in Hx; tauto.
Qed.

(** X5: a DELETE repeated for the same key is answered with changes: 0 and
    leaves the table as the first one left it. *)
Theorem delete_again_changes_nothing (id : string) (i : Z) (e1 e2 : env) (db : Db) :
  storage_up e1 = true ->
  storage_up e2 = true ->
  key_of (SqlStr id) = inr (Some i) ->
  fst (delete_todos id e2 (snd (delete_todos id e1 db)))
  = res_json (json_changes "deleted" 0)
  /\ todos (snd (delete_todos id e2 (snd (delete_todos id e1 db))))
     = todos (snd (delete_todos id e1 db)).
Proof.
  intros Hup1 Hup2 Hk.
  destruct (delete_todos_run id _ e2 (snd (delete_todos id e1 db)) Hup2 Hk) as [-> ->].
  destruct (delete_todos_run id _ e1 db Hup1 Hk) as [_ ->]; cbn [rows auto_increment].
  rewrite filter_twice, filter_none; [split; reflexivity|].
  intros x Hx; apply filter_In in Hx; apply negb_true_iff; tauto.
Qed.

Lemma delete_again_changes_nothing_witness :
  storage_up sample_env = true
  /\ key_of (SqlStr "1") = inr (Some 1)
  /\ fst (delete_todos "1" sample_env (snd (delete_todos "1" sample_env one_task_db)))
     = res_json (json_changes "deleted" 0).
Proof.
  split; [reflexivity|]; split; [reflexivity|].
  exact (proj1 (delete_again_changes_nothing "1" 1 sample_env sample_env one_task_db
                  eq_refl eq_refl eq_refl)).
Defined.

Lemma one_row_per_key (i : Z) (l : list row) (r : row) :
  NoDup (map id l) -> In r l -> id r = i ->
  List.length (filter (has_key (Some i)) l) = 1%nat.
Proof.
  intros Hnd Hin Hi; induction l as [|a l IH]; [contradiction|].
  simpl in Hnd; inversion_clear Hnd as [|? ? Hfresh Hrest].
  cbn [filter]; destruct Hin as [->|Hin].
  - replace (has_key (Some i) r) with true by (symmetry; apply has_key_Some, Hi).
    rewrite filter_none; [reflexivity|].
    intros x Hx; apply has_key_Some_false; intros Hxi.
    apply Hfresh; rewrite Hi, <- Hxi; apply in_map, Hx.
  - replace (has_key (Some i) a) with false; [exact (IH Hrest Hin)|].
    symmetry; apply has_key_Some_false; intros Hai.
    apply Hfresh; rewrite Hai, <- Hi; apply in_map, Hin.
Qed.

(** X6: in a state reached through the API, a DELETE for a path that spells
    the key of a row of the table is answered with changes: 1, leaves one
    row less, and the row is gone. *)
Theorem delete_existing_removes_one (id : string) (r : row) (e : env) (db : Db) :
  reachable db ->
  storage_up e = true ->
  In r (rows (todos db)) ->
  key_of (SqlStr id) = inr (Some (MySQL.id r)) ->
  fst (delete_todos id e db) = res_json (json_changes "deleted" 1)
  /\ S (List.length (rows (todos (snd (delete_todos id e db)))))
     = List.length (rows (todos db))
  /\ ~ In r (rows (todos (snd (delete_todos id e db)))).
Proof.
  intros Hreach Hup Hin Hk.
  destruct (reachable_primary_key db Hreach) as (Hnd & _ & _).
  pose proof (one_row_per_key (MySQL.id r) _ r Hnd Hin eq_refl) as Hone.
  destruct (delete_todos_run id _ e db Hup Hk) as [-> ->]; cbn [rows].
  pose proof (filter_split_length (has_key (Some (MySQL.id r))) (rows (todos db)))
    as Hlen.
  rewrite Hone in *; repeat split; [lia|].
  intros Hr; apply filter_In in Hr; destruct Hr as [_ Hr].
  apply negb_true_iff, has_key_Some_false in Hr; congruence.
Qed.

Lemma delete_existing_removes_one_witness :
  reachable one_task_db
  /\ key_of (SqlStr "1") = inr (Some 1)
  /\ fst (delete_todos "1" sample_env one_task_db) = res_json (json_changes "deleted" 1).
Proof.
  assert (reachable one_task_db) as Hreach
    by (apply reachable_request, reachable_initial).
  split; [exact Hreach|]; split; [reflexivity|].
  exact (proj1 (delete_existing_removes_one "1"
                  {| id := 1; task := "Buy milk"; status := Some "active";
                     created_at := 1762151696000 |}
                  sample_env one_task_db Hreach eq_refl (or_introl eq_refl) eq_refl)).
Defined.

(** ** Keys and timestamps over histories *)

Lemma post_todos_answer_key (task : jsval) (e : env) (db : Db)
    (m : string) (k : Z) (t : jsval) (s : string) (c : Z) :
  fst (post_todos task e db) = res_json (json_task m k t s c) ->
  k = auto_increment (todos db)
  /\ todos (snd (post_todos task e db)) <> todos db.
Proof.
  unfold post_todos; destruct (truthy task); simpl; [|discriminate].
  unfold db_query, execute; simpl.
  destruct (storage_up e); simpl; [|discriminate].
  destruct (store_task (escape task)) as [err|text]; [discriminate|].
  destruct (INT_MAX <? auto_increment (todos db)); simpl; [discriminate|].
  intros H; inversion H; split; [reflexivity|].
  intros Heq; apply (f_equal auto_increment) in Heq; simpl in Heq; lia.
Qed.

Lemma app_counter (r : request) (e : env) (db : Db) :
  auto_increment (todos db) <= auto_increment (todos (snd (app r e db))).
Proof.
  destruct r as [|task|id task status|id]; simpl.
  - rewrite get_todos_table; lia.
  - destruct (post_todos_table task e db) as [->|(text & _ & _ & _ & ->)]; simpl; lia.
  - destruct (put_todos_table id task status e db)
      as [->|(k & l & m & c & _ & _ & ->)];
      simpl; lia.
  - destruct (delete_todos_table id e db) as [->|(k & _ & ->)]; simpl; lia.
Qed.

Lemma serve_counter (history : list (request * env)) (db : Db) :
  auto_increment (todos db) <= auto_increment (todos (serve history db)).
Proof.
  revert db; induction history as [|[r e] history IH]; intros db; simpl; [lia|].
  pose proof (app_counter r e db); pose proof (IH (snd (app r e db))); lia.
Qed.

Lemma serve_reachable (history : list (request * env)) (db : Db) :
  reachable db -> reachable (serve history db).
Proof.
  revert db; induction history as [|[r e] history IH]; intros db H; simpl; [exact H|].
  apply IH, reachable_request, H.
Qed.

(** X7: a key is never given out twice.  Whatever requests follow, deletions
    included, the key a later POST answers with is larger than the key of
    every row the table has held before. *)
Theorem keys_are_never_reused (r : row) (history : list (request * env))
    (task : jsval) (e : env) (db : Db) (m : string) (k : Z) (t : jsval)
    (s : string) (c : Z) :
  reachable db ->
  In r (rows (todos db)) ->
  fst (post_todos task e (serve history db)) = res_json (json_task m k t s c) ->
  id r < k.
Proof.
  intros Hreach Hin Hres.
  apply post_todos_answer_key in Hres; destruct Hres as [-> _].
  destruct (reachable_primary_key db Hreach) as (_ & Hrange & _).
  rewrite Forall_forall in Hrange; specialize (Hrange r Hin).
  pose proof (serve_counter history db); lia.
Qed.

Lemma keys_are_never_reused_witness :
  reachable one_task_db
  /\ fst (post_todos (JStr "Walk the dog") sample_env
            (serve [(DELETE "1", sample_env)] one_task_db))
     = res_json (json_task "success" 2 (JStr "Walk the dog") "active" 1762151696042)
  /\ 1 < 2.
Proof.
  assert (reachable one_task_db) as Hreach
    by (apply reachable_request, reachable_initial).
  split; [exact Hreach|]; split; [reflexivity|].
  exact (keys_are_never_reused
           {| id := 1; task := "Buy milk"; status := Some "active";
              created_at := 1762151696000 |}
           [(DELETE "1", sample_env)] (JStr "Walk the dog") sample_env one_task_db
           "success" 2 (JStr "Walk the dog") "active" 1762151696042
           Hreach (or_introl eq_refl) eq_refl).
Defined.

(** X8: creating a task and deleting, by a path that spells it, the key the
    answer carries leaves the rows as they were, but not the key counter: it
    has moved on by one. *)
Theorem post_then_delete_restores_rows (text id : string) (e1 e2 : env) (db : Db) :
  reachable db ->
  storage_up e1 = true ->
  storage_up e2 = true ->
  text <> "" ->
  (String.length text <= 255)%nat ->
  auto_increment (todos db) <= INT_MAX ->
  key_of (SqlStr id) = inr (Some (auto_increment (todos db))) ->
  let created := post_todos (JStr text) e1 db in
  let key := auto_increment (todos db) in
  fst created = res_json (json_task "success" key (JStr text) "active" (new_Date e1))
  /\ todos (snd (delete_todos id e2 (snd created)))
     = {| rows := rows (todos db); auto_increment := key + 1 |}.
Proof.
  intros Hreach Hup1 Hup2 Htext Hlen Hmax Hk created key.
  assert (truthy (JStr text) = true) as Ht
    by (destruct text; [contradiction | reflexivity]).
  destruct (post_todos_run (JStr text) text e1 db Ht Hup1
              (varchar255_fits text Hlen) Hmax) as [Hres Htab].
  split; [exact Hres|].
  destruct (delete_todos_run id _ e2 (snd created) Hup2 Hk) as [_ ->].
  unfold created; rewrite Htab; cbn [rows auto_increment]; f_equal.
  rewrite filter_app; cbn [filter MySQL.id has_key]; fold key.
  rewrite Z.eqb_refl; cbn [negb]; rewrite app_nil_r.
  apply filter_all; intros x Hx; apply negb_true_iff, has_key_Some_false.
  destruct (reachable_primary_key db Hreach) as (_ & Hrange & _).
  rewrite Forall_forall in Hrange; specialize (Hrange x Hx); unfold key; lia.
Qed.

Lemma post_then_delete_restores_rows_witness :
  reachable one_task_db
  /\ key_of (SqlStr "2") = inr (Some (auto_increment (todos one_task_db)))
  /\ todos (snd (delete_todos "2" sample_env
                   (snd (post_todos (JStr "Walk the dog") sample_env one_task_db))))
     = {| rows := rows (todos one_task_db); auto_increment := 3 |}.
Proof.
  assert (reachable one_task_db) as Hreach
    by (apply reachable_request, reachable_initial).
  split; [exact Hreach|]; split; [reflexivity|].
  refine (proj2 (post_then_delete_restores_rows "Walk the dog" "2" sample_env
                   sample_env one_task_db Hreach eq_refl eq_refl _ _ _ eq_refl)).
  - discriminate.
  - simpl; lia.
  - unfold INT_MAX; simpl; lia.
Defined.

Lemma Forall2_In_r {A B : Type} (R : A -> B -> Prop) (l : list A) (l' : list B) (y : B) :
  Forall2 R l l' -> In y l' -> exists x, In x l /\ R x y.
Proof.
  induction 1 as [|a b l l' Hab _ IH]; intros Hin; [contradiction|].
  destruct Hin as [<-|Hin]; [exists a; split; [left; reflexivity | exact Hab]|].
  destruct (IH Hin) as (x & Hx & Hxy); exists x; split; [right|]; assumption.
Qed.

Lemma put_todos_keeps_keys (id : string) (task status : jsval) (e : env) (db : Db) :
  Forall2 (fun x x' => MySQL.id x' = MySQL.id x /\ created_at x' = created_at x)
    (rows (todos db)) (rows (todos (snd (put_todos id task status e db)))).
Proof.
  destruct (put_todos_table id task status e db)
    as [->|(k & l & m & c & _ & Hu & ->)].
  - induction (rows (todos db)); constructor; auto.
  - apply update_rows_spec in Hu; destruct Hu as (HF & _ & _); simpl.
    induction HF as [|x x' l0 l0' Hx _ IH]; constructor; [|exact IH].
    destruct (has_key k x); [|subst; auto].
    apply assign_all_frame in Hx; tauto.
Qed.

(** Where the rows after one request come from: a row of the table before,
    with the same key and timestamp, or the row a POST has just inserted. *)
Lemma app_row_origin (r : request) (e : env) (db : Db) (x' : row) :
  In x' (rows (todos (snd (app r e db)))) ->
  (exists x, In x (rows (todos db)) /\ id x' = id x /\ created_at x' = created_at x)
  \/ (id x' = auto_increment (todos db) /\ created_at x' = CURRENT_TIMESTAMP e
      /\ auto_increment (todos db) <= INT_MAX).
Proof.
  destruct r as [|task|i task status|i]; simpl.
  - rewrite get_todos_table; intros H; left; exists x'; auto.
  - destruct (post_todos_table task e db) as [->|(text & _ & _ & Hmax & ->)].
    + intros H; left; exists x'; auto.
    + simpl; intros H; apply in_app_or in H; destruct H as [H|[<-|[]]].
      * left; exists x'; auto.
      * right; repeat split; exact Hmax.
  - intros H.
    destruct (Forall2_In_r _ _ _ _ (put_todos_keeps_keys i task status e db) H)
      as (x & Hx & Hi & Hc).
    left; exists x; auto.
  - destruct (delete_todos_table i e db) as [->|(k & _ & ->)].
    + intros H; left; exists x'; auto.
    + simpl; intros H; apply filter_In in H; left; exists x'; tauto.
Qed.

Lemma serve_row_origin (history : list (request * env)) (db : Db) (x' : row) :
  In x' (rows (todos (serve history db))) ->
  id x' < auto_increment (todos db) ->
  exists x, In x (rows (todos db)) /\ id x' = id x /\ created_at x' = created_at x.
Proof.
  revert db; induction history as [|[r e] history IH]; intros db Hin Hold; simpl in Hin.
  - exists x'; auto.
  - pose proof (app_counter r e db) as Hc.
    destruct (IH _ Hin ltac:(lia)) as (x1 & Hx1 & Hi1 & Hc1).
    destruct (app_row_origin r e db x1 Hx1) as [(x & Hx & Hi & Hcr)|[Hnew _]].
    + exists x; repeat split; congruence.
    + lia.
Qed.

Lemma reachable_keys_in_range (db : Db) :
  reachable db -> Forall (fun x => 1 <= id x <= INT_MAX) (rows (todos db)).
Proof.
  induction 1 as [|r e db Hreach IH]; [constructor|].
  pose proof (reachable_primary_key db Hreach) as (_ & _ & Hpos).
  rewrite Forall_forall in *; intros x' Hx'.
  destruct (app_row_origin r e db x' Hx') as [(x & Hx & -> & _)|(-> & _ & Hmax)];
    [apply IH, Hx | lia].
Qed.

(** X9: for requests whose body fields are texts or absent, [id] and
    [created_at] are set once.  In a state such requests have led to,
    whatever such requests follow, a row that has the key of a row of the
    present table has that row's [created_at]; no request changes it and no
    later row takes the key. *)
Theorem created_at_is_set_once (x x' : row) (before after : list (request * env)) :
  plain_history before = true ->
  plain_history after = true ->
  In x (rows (todos (serve before initial_db))) ->
  In x' (rows (todos (serve after (serve before initial_db)))) ->
  id x' = id x ->
  created_at x' = created_at x.
Proof.
  intros _ _ Hx Hx' Hid.
  pose proof (serve_reachable before _ reachable_initial) as Hreach.
  destruct (reachable_primary_key _ Hreach) as (Hnd & Hrange & _).
  rewrite Forall_forall in Hrange; pose proof (Hrange x Hx) as Hb.
  destruct (serve_row_origin after _ x' Hx' ltac:(lia)) as (x0 & Hx0 & Hi0 & Hc0).
  destruct (find_unique (id x) _ x Hnd Hx eq_refl) as [_ Huniq].
  rewrite Hc0, (Huniq x0 Hx0); [reflexivity | congruence].
Qed.

Lemma created_at_is_set_once_witness :
  plain_history [(POST (JStr "Buy milk"), sample_env)] = true
  /\ plain_history
       [(PUT "1" (JStr "Buy bread") (JStr "completed"),
         {| storage_up := true; CURRENT_TIMESTAMP := 1762151700000;
            new_Date := 1762151700005 |})] = true
  /\ created_at {| id := 1; task := "Buy bread"; status := Some "completed";
                   created_at := 1762151696000 |}
     = 1762151696000.
Proof.
  split; [reflexivity|]; split; [reflexivity|].
  exact (created_at_is_set_once
           {| id := 1; task := "Buy milk"; status := Some "active";
              created_at := 1762151696000 |}
           {| id := 1; task := "Buy bread"; status := Some "completed";
              created_at := 1762151696000 |}
           [(POST (JStr "Buy milk"), sample_env)]
           [(PUT "1" (JStr "Buy bread") (JStr "completed"),
             {| storage_up := true; CURRENT_TIMESTAMP := 1762151700000;
                new_Date := 1762151700005 |})]
           eq_refl eq_refl (or_introl eq_refl) (or_introl eq_refl) eq_refl).
Defined.

(** X10: in every state that requests whose body fields are texts or absent
    have led to, a key belongs to one row only, and every key is positive
    and within the range of INT. *)
Theorem keys_unique_and_in_range (history : list (request * env)) :
  plain_history history = true ->
  (forall x y,
      In x (rows (todos (serve history initial_db))) ->
      In y (rows (todos (serve history initial_db))) -> id x = id y -> x = y)
  /\ Forall (fun x => 1 <= id x <= INT_MAX) (rows (todos (serve history initial_db))).
Proof.
  intros _.
  pose proof (serve_reachable history _ reachable_initial) as Hreach; split.
  - destruct (reachable_primary_key _ Hreach) as (Hnd & _ & _).
    intros x y Hx Hy Hxy.
    destruct (find_unique (id y) _ y Hnd Hy eq_refl) as [_ Huniq].
    apply Huniq; assumption.
  - apply reachable_keys_in_range; exact Hreach.
Qed.

Lemma keys_unique_and_in_range_witness :
  plain_history [(POST (JStr "Buy milk"), sample_env); (DELETE "7", sample_env)] = true
  /\ Forall (fun x => 1 <= id x <= INT_MAX)
       (rows (todos (serve [(POST (JStr "Buy milk"), sample_env);
                            (DELETE "7", sample_env)] initial_db))).
Proof.
  split; [reflexivity|].
  exact (proj2 (keys_unique_and_in_range
                  [(POST (JStr "Buy milk"), sample_env); (DELETE "7", sample_env)]
                  eq_refl)).
Defined.

(** ** PUT /todos/:id, again *)

Lemma is_member_stored (s : string) :
  is_member s = true -> store_status (SqlStr s) = inr (Some s).
Proof.
  unfold is_member; intros H; apply orb_true_iff in H.
  destruct H as [H|H]; apply String.eqb_eq in H; subst; reflexivity.
Qed.

Lemma assign_all_put_row (task status : jsval) (r : row) :
  field_ok fits_task task = true ->
  field_ok is_member status = true ->
  assign_all (set_list task status) r = inr (put_row task status r).
Proof.
  unfold set_list, put_row; intros Ht Hs.
  destruct task as [| | | |t]; try discriminate Ht;
    destruct status as [| | | |s]; try discriminate Hs;
    cbn [defined escape Datatypes.app assign_all assign store_task field_ok] in *.
  - destruct r; reflexivity.
  - rewrite (is_member_stored s Hs); reflexivity.
  - rewrite varchar255_fits by (apply Nat.leb_le; exact Ht); reflexivity.
  - rewrite varchar255_fits by (apply Nat.leb_le; exact Ht).
    cbn [MySQL.task MySQL.status id created_at];
    rewrite (is_member_stored s Hs); reflexivity.
Qed.

(** X11: a PUT whose fields the storage can hold (a text of at most 255
    characters, a status that is active or completed; at least one of them),
    for a path that spells a key, is answered with success; the row with the
    key has the given text and the given status, each where given, every
    other row is as before, and [changes] counts the rows that differ. *)
Theorem put_sets_the_given_fields (id : string) (i : Z) (task status : jsval)
    (e : env) (db : Db) :
  storage_up e = true ->
  key_of (SqlStr id) = inr (Some i) ->
  defined task || defined status = true ->
  field_ok fits_task task = true ->
  field_ok is_member status = true ->
  let put := put_todos id task status e db in
  rows (todos (snd put))
  = map (fun r => if has_key (Some i) r then put_row task status r else r)
      (rows (todos db))
  /\ fst put
     = res_json (json_changes "success"
                   (Z.of_nat (changed_count (rows (todos db)) (rows (todos (snd put)))))).
Proof.
  intros Hup Hk Hf Ht Hs put.
  pose proof (put_todos_run id _ task status e db Hf Hup Hk) as H; fold put in H.
  rewrite (update_rows_total _ (put_row task status) _ _
             (fun r => assign_all_put_row task status r Ht Hs)) in H.
  apply pair_equal_spec in H; destruct H as [Hres Htab].
  rewrite Hres, Htab; split; reflexivity.
Qed.

Lemma put_sets_the_given_fields_witness :
  storage_up sample_env = true
  /\ key_of (SqlStr "1") = inr (Some 1)
  /\ rows (todos (snd (put_todos "1" (JStr "Buy bread") (JStr "completed")
                         sample_env one_task_db)))
     = [{| id := 1; task := "Buy bread"; status := Some "completed";
           created_at := 1762151696000 |}].
Proof.
  split; [reflexivity|]; split; [reflexivity|].
  exact (proj1 (put_sets_the_given_fields "1" 1 (JStr "Buy bread") (JStr "completed")
                  sample_env one_task_db eq_refl eq_refl eq_refl eq_refl eq_refl)).
Defined.

Lemma assign_all_again (task status : jsval) (r r' : row) :
  assign_all (set_list task status) r = inr r' ->
  assign_all (set_list task status) r' = inr r'.
Proof.
  unfold set_list; destruct (defined task), (defined status); simpl.
  - destruct (store_task (escape task)) as [err|t]; [discriminate|].
    destruct (store_status (escape status)) as [err|s]; [discriminate|].
    intros H; inversion H; reflexivity.
  - destruct (store_task (escape task)) as [err|t]; [discriminate|].
    intros H; inversion H; reflexivity.
  - destruct (store_status (escape status)) as [err|s]; [discriminate|].
    intros H; inversion H; reflexivity.
  - intros H; inversion H; reflexivity.
Qed.

Lemma update_rows_again (task status : jsval) (k : option Z) (l l' : list row)
    (matched changed : Z) :
  update_rows (set_list task status) k l = inr (l', matched, changed) ->
  update_rows (set_list task status) k l' = inr (l', matched, 0).
Proof.
  revert l' matched changed; induction l as [|r l IH]; intros l' m c H; simpl in H.
  - inversion H; reflexivity.
  - destruct (has_key k r) eqn:Hk.
    + destruct (assign_all (set_list task status) r) as [err|r'] eqn:Ha; [discriminate|].
      destruct (update_rows (set_list task status) k l) as [err|[[l1 m1] c1]];
        [discriminate|].
      inversion H; subst; clear H; cbn [update_rows].
      assert (has_key k r' = true) as ->.
      { destruct (assign_all_frame _ _ _ Ha) as (Hi & _).
        destruct k; simpl in *; [rewrite Hi|]; exact Hk. }
      rewrite (assign_all_again _ _ _ _ Ha), (IH _ _ _ eq_refl), row_eqb_refl.
      reflexivity.
    + destruct (update_rows (set_list task status) k l) as [err|[[l1 m1] c1]];
        [discriminate|].
      inversion H; subst; clear H; cbn [update_rows].
      rewrite Hk, (IH _ _ _ eq_refl); reflexivity.
Qed.

(** X12: a PUT whose fields are texts or absent, sent twice (as the status
    button of a view that was not refreshed does), leaves the table as the
    first one left it; if the first was answered with success, the second is
    answered with changes: 0. *)
Theorem put_again_changes_nothing (id : string) (task status : jsval)
    (e1 e2 : env) (db : Db) :
  storage_up e1 = true ->
  storage_up e2 = true ->
  text_or_absent task = true ->
  text_or_absent status = true ->
  let once := put_todos id task status e1 db in
  let twice := put_todos id task status e2 (snd once) in
  todos (snd twice) = todos (snd once)
  /\ (status_code (fst once) = 200 ->
      fst twice = res_json (json_changes "success" 0)).
Proof.
  intros Hup1 Hup2 _ _ once twice.
  destruct (defined task || defined status) eqn:Hf;
    [|destruct task, status; try discriminate Hf;
      split; [reflexivity | discriminate]].
  destruct (key_of (SqlStr id)) as [err|k] eqn:Hk.
  - destruct (put_todos_bad_key id err task status e1 db Hf Hup1 Hk) as [Hr1 Ht1].
    destruct (put_todos_bad_key id err task status e2 (snd once) Hf Hup2 Hk)
      as [_ Ht2].
    fold once in Hr1, Ht1; fold twice in Ht2.
    split; [exact Ht2 | rewrite Hr1; discriminate].
  - pose proof (put_todos_run id k task status e1 db Hf Hup1 Hk) as H1;
      fold once in H1.
    pose proof (put_todos_run id k task status e2 (snd once) Hf Hup2 Hk) as H2;
      fold twice in H2.
    destruct (update_rows (set_list task status) k (rows (todos db)))
      as [err|[[l m] c]] eqn:Hu;
      apply pair_equal_spec in H1; destruct H1 as [Hres1 Htab1];
      rewrite Htab1 in H2; cbn [rows auto_increment] in H2.
    + rewrite Hu in H2; apply pair_equal_spec in H2; destruct H2 as [_ Htab2].
      split; [congruence|].
      rewrite Hres1; discriminate.
    + rewrite (update_rows_again _ _ _ _ _ _ _ Hu) in H2.
      apply pair_equal_spec in H2; destruct H2 as [Hres2 Htab2].
      split; [congruence | intros _; exact Hres2].
Qed.

Lemma put_again_changes_nothing_witness :
  storage_up sample_env = true
  /\ text_or_absent (JStr "completed") = true
  /\ fst (put_todos "1" JUndefined (JStr "completed") sample_env
            (snd (put_todos "1" JUndefined (JStr "completed") sample_env one_task_db)))
     = res_json (json_changes "success" 0).
Proof.
  split; [reflexivity|]; split; [reflexivity|].
  exact (proj2 (put_again_changes_nothing "1" JUndefined (JStr "completed")
                  sample_env sample_env one_task_db eq_refl eq_refl eq_refl eq_refl)
           eq_refl).
Defined.

(** ** GET /todos after POST /todos *)

Lemma order_by_newest_last (l : list row) (n : row) :
  Forall (fun r => created_at r < created_at n) l ->
  order_by_created_at_desc (l ++ [n]) = n :: order_by_created_at_desc l.
Proof.
  induction 1 as [|a l Ha _ IH]; [reflexivity|].
  cbn [Datatypes.app order_by_created_at_desc]; rewrite IH; cbn [insert_desc].
  replace (created_at n <=? created_at a) with false; [reflexivity|].
  symmetry; apply Z.leb_gt; exact Ha.
Qed.

(** X13: a task created at a later time than every task of the table is the
    first of the next listing, followed by the listing as it was. *)
Theorem newest_task_is_listed_first (text : string) (e e' : env) (db : Db) :
  storage_up e = true ->
  storage_up e' = true ->
  text <> "" ->
  (String.length text <= 255)%nat ->
  auto_increment (todos db) <= INT_MAX ->
  Forall (fun r => created_at r < CURRENT_TIMESTAMP e) (rows (todos db)) ->
  fst (get_todos e' (snd (post_todos (JStr text) e db)))
  = res_json (json_data "success"
      (ResultRows ({| id := auto_increment (todos db); task := text;
                      status := Some "active"; created_at := CURRENT_TIMESTAMP e |}
                   :: order_by_created_at_desc (rows (todos db))))).
Proof.
  intros Hup Hup' Htext Hlen Hmax Hlater.
  assert (truthy (JStr text) = true) as Ht
    by (destruct text; [contradiction | reflexivity]).
  destruct (post_todos_run (JStr text) text e db Ht Hup
              (varchar255_fits text Hlen) Hmax) as [_ Htab].
  unfold get_todos; rewrite db_query_run; cbn [fst].
  unfold execute; rewrite Hup', Htab; cbn [negb rows fst].
  rewrite order_by_newest_last by exact Hlater; reflexivity.
Qed.

Lemma newest_task_is_listed_first_witness :
  storage_up sample_env = true
  /\ fst (get_todos sample_env
            (snd (post_todos (JStr "Walk the dog")
                    {| storage_up := true; CURRENT_TIMESTAMP := 1762151700000;
                       new_Date := 1762151700005 |} one_task_db)))
     = res_json (json_data "success"
         (ResultRows [{| id := 2; task := "Walk the dog"; status := Some "active";
                         created_at := 1762151700000 |};
                      {| id := 1; task := "Buy milk"; status := Some "active";
                         created_at := 1762151696000 |}])).
Proof.
  split; [reflexivity|].
  refine (newest_task_is_listed_first "Walk the dog"
            {| storage_up := true; CURRENT_TIMESTAMP := 1762151700000;
               new_Date := 1762151700005 |} sample_env one_task_db
            eq_refl eq_refl _ _ _ _).
  - discriminate.
  - simpl; lia.
  - unfold INT_MAX; simpl; lia.
  - constructor; [simpl; lia | constructor].
Defined.

(** * Further properties of the client *)

(** ** The delete confirmation *)

Lemma on_event_sent (c : event) (m : modal) (r : request) :
  fst (on_event c m) = Some r ->
  (exists id, r = DELETE (decimal id) /\ id <> 0 /\ todoIdToDelete m = Some id
              /\ c = click_confirm)
  \/ (r = GET /\ c = fetch_settled true).
Proof.
  destruct c as [id| | |b|f]; simpl; try discriminate.
  - unfold confirmDelete; destruct (todoIdToDelete m) as [id|] eqn:Hm; [|discriminate].
    destruct (truthy (JNum id)) eqn:Ht; [|discriminate].
    simpl; intros H; inversion H; left; exists id.
    split; [reflexivity|]; split; [|split; reflexivity].
    intros Hz; rewrite Hz in Ht; discriminate Ht.
  - unfold confirmDelete_resumed; destruct (awaiting m); [discriminate|].
    destruct f; [|discriminate].
    simpl; intros H; inversion H; right; split; reflexivity.
Qed.

Lemma on_event_pending (c : event) (m : modal) (id : Z) :
  todoIdToDelete (snd (on_event c m)) = Some id ->
  c = click_delete id \/ todoIdToDelete m = Some id.
Proof.
  destruct c as [i| | |b|f]; simpl.
  - intros H; inversion H; auto.
  - unfold confirmDelete; destruct (todoIdToDelete m) as [i|] eqn:Hm.
    + destruct (truthy (JNum i)); simpl; rewrite ?Hm; auto.
    + simpl; rewrite Hm; discriminate.
  - discriminate.
  - destruct b; [discriminate | auto].
  - unfold confirmDelete_resumed; destruct (awaiting m); [auto | discriminate].
Qed.

Lemma events_cons (c : event) (cs : list event) (m : modal) :
  events (c :: cs) m
  = (match fst (on_event c m) with
     | Some r => r :: fst (events cs (snd (on_event c m)))
     | None => fst (events cs (snd (on_event c m)))
     end,
     snd (events cs (snd (on_event c m)))).
Proof.
  cbn [events]; destruct (on_event c m) as [sent m']; cbn [fst snd].
  destruct (events cs m') as [rest m'']; reflexivity.
Qed.

Lemma events_sent (cs : list event) (m : modal) (r : request) :
  In r (fst (events cs m)) ->
  r = GET
  \/ exists id, r = DELETE (decimal id) /\ id <> 0 /\ In click_confirm cs
                /\ (In (click_delete id) cs \/ todoIdToDelete m = Some id).
Proof.
  revert m; induction cs as [|c cs IH]; intros m; [intros []|].
  rewrite events_cons; cbn [fst].
  assert (In r (fst (events cs (snd (on_event c m)))) ->
          r = GET
          \/ exists id, r = DELETE (decimal id) /\ id <> 0
                        /\ In click_confirm (c :: cs)
                        /\ (In (click_delete id) (c :: cs)
                            \/ todoIdToDelete m = Some id))
    as Hrest.
  { intros Hin; destruct (IH _ Hin) as [->|(id & -> & Hid & Hc & [Hcs|Hp])];
      [left; reflexivity | |]; right.
    - exists id; repeat split; auto using in_cons.
    - exists id; repeat split; auto using in_cons.
      destruct (on_event_pending c m id Hp) as [->|Hm]; [left; left|right]; auto. }
  destruct (fst (on_event c m)) as [r0|] eqn:Hs; [|exact Hrest].
  intros [<-|Hin]; [|exact (Hrest Hin)].
  destruct (on_event_sent c m r0 Hs) as [(id & -> & Hid & Hm & ->)|[-> _]];
    [right | left; reflexivity].
  exists id; repeat split; auto using in_eq.
Qed.

(** X14: nothing is deleted that the user has not asked for and confirmed.
    Starting with no key pending, whatever happens to the dialog, the only
    requests sent are refreshing GETs and DELETEs, and a DELETE is sent only
    if Confirm is clicked, to the path of a key whose delete button was
    pressed. *)
Theorem no_delete_without_asking (cs : list event) (m : modal) :
  todoIdToDelete m = None ->
  forall r, In r (fst (events cs m)) ->
            r = GET
            \/ (In click_confirm cs
                /\ exists id, r = DELETE (decimal id) /\ In (click_delete id) cs).
Proof.
  intros Hm r Hr.
  destruct (events_sent cs m r Hr) as [->|(id & -> & _ & Hc & [Hin|Hp])].
  - left; reflexivity.
  - right; split; [exact Hc | exists id; auto].
  - rewrite Hm in Hp; discriminate Hp.
Qed.

Lemma no_delete_without_asking_witness :
  todoIdToDelete {| todoIdToDelete := None; hidden := true; awaiting := 0 |} = None
  /\ In (click_delete 7)
       [click_delete 4; click_cancel; click_confirm; click_delete 7; click_confirm;
        fetch_settled true].
Proof.
  split; [reflexivity|].
  destruct (no_delete_without_asking
              [click_delete 4; click_cancel; click_confirm; click_delete 7;
               click_confirm; fetch_settled true]
              {| todoIdToDelete := None; hidden := true; awaiting := 0 |} eq_refl
              (DELETE "7") (or_introl eq_refl)) as [Hr|(_ & id & Hr & Hin)];
    [discriminate Hr|].
  simpl; tauto.
Defined.

(** X15: a confirmation sends the DELETE for the key asked about and, once
    the fetch has settled, refreshes the view (if the fetch was fulfilled)
    and closes the dialog, after which Confirm sends nothing; clicked again
    before the fetch has settled, Confirm sends the same DELETE a second
    time.  Confirm sends nothing after Cancel or after a click on the
    backdrop, and a click inside the dialog changes nothing.  A delete
    button pressed while a fetch is pending opens a dialog that the settling
    fetch closes, so that Confirm then sends nothing.  (The key 0 is falsy:
    for it Confirm sends nothing.) *)
Theorem confirm_sends_the_pending_key (id other : Z) (m : modal) :
  id <> 0 ->
  fst (events [click_delete id; click_confirm; fetch_settled true; click_confirm] m)
  = [DELETE (decimal id); GET]
  /\ fst (events [click_delete id; click_confirm; fetch_settled false; click_confirm] m)
     = [DELETE (decimal id)]
  /\ fst (events [click_delete id; click_confirm; click_confirm] m)
     = [DELETE (decimal id); DELETE (decimal id)]
  /\ fst (events [click_delete id; click_cancel; click_confirm] m) = []
  /\ fst (events [click_delete id; click_dialog true; click_confirm] m) = []
  /\ fst (events [click_delete id; click_dialog false; click_confirm] m)
     = [DELETE (decimal id)]
  /\ fst (events [click_delete id; click_confirm; click_delete other;
                  fetch_settled true; click_confirm] m)
     = [DELETE (decimal id); GET]
  /\ (forall f,
        todoIdToDelete (snd (events [click_delete id; click_confirm; fetch_settled f] m))
        = None
        /\ hidden (snd (events [click_delete id; click_confirm; fetch_settled f] m))
           = true)
  /\ fst (events [click_delete 0; click_confirm] m) = [].
Proof.
  intros Hid.
  assert (truthy (JNum id) = true) as Ht
    by (simpl; apply negb_true_iff, Z.eqb_neq; exact Hid).
  unfold events, on_event, confirmDelete, confirmDelete_resumed, deleteTodo,
    showDeleteModal, hideDeleteModal;
    cbn [todoIdToDelete hidden awaiting];
    repeat (rewrite Ht; cbn [todoIdToDelete hidden awaiting fst snd]).
  repeat split.
Qed.

Lemma confirm_sends_the_pending_key_witness :
  7 <> 0
  /\ fst (events [click_delete 7; click_confirm; click_confirm]
            {| todoIdToDelete := None; hidden := true; awaiting := 0 |})
     = [DELETE "7"; DELETE "7"].
Proof.
  assert (7 <> 0) as H by discriminate.
  split; [exact H|].
  exact (proj1 (proj2 (proj2 (confirm_sends_the_pending_key 7 0
                         {| todoIdToDelete := None; hidden := true; awaiting := 0 |} H)))).
Defined.

(** ** What the page sends *)

Lemma trimStart_blank (s : string) :
  only_whitespace (trimStart s) = true -> only_whitespace s = true.
Proof.
  induction s as [|c s IH]; [reflexivity|].
  cbn [trimStart only_whitespace]; destruct (is_space c) eqn:Hc; [exact IH|].
  cbn [only_whitespace]; rewrite Hc; discriminate.
Qed.

Lemma trimEnd_blank (s : string) :
  only_whitespace (trimEnd s) = true -> trimEnd s = "".
Proof.
  induction s as [|c s IH]; [reflexivity|].
  cbn [trimEnd]; destruct (trimEnd s) as [|c' t] eqn:Ht.
  - destruct (is_space c) eqn:Hc; [reflexivity|].
    cbn [only_whitespace]; rewrite Hc; discriminate.
  - cbn [only_whitespace] in *; intros H; apply andb_true_iff in H.
    destruct H as [_ H]; specialize (IH H); discriminate IH.
Qed.

Lemma trim_not_blank (s : string) :
  trim s <> "" -> only_whitespace (trim s) = false /\ only_whitespace s = false.
Proof.
  intros Hne; split.
  - destruct (only_whitespace (trim s)) eqn:H; [|reflexivity].
    exfalso; apply Hne, trimEnd_blank, H.
  - destruct (only_whitespace s) eqn:H; [|reflexivity].
    exfalso; apply Hne, trim_whitespace, H.
Qed.

Lemma trimStart_starts (s : string) : starts_with_space (trimStart s) = false.
Proof.
  induction s as [|c s IH]; [reflexivity|].
  cbn [trimStart]; destruct (is_space c) eqn:Hc; [exact IH | exact Hc].
Qed.

Lemma trimEnd_starts (s : string) :
  starts_with_space s = false -> starts_with_space (trimEnd s) = false.
Proof.
  destruct s as [|c s]; [reflexivity|].
  cbn [trimEnd starts_with_space]; intros Hc.
  destruct (trimEnd s); [rewrite Hc; exact Hc | exact Hc].
Qed.

Lemma trimEnd_ends (s : string) : ends_with_space (trimEnd s) = false.
Proof.
  induction s as [|c s IH]; [reflexivity|].
  cbn [trimEnd]; destruct (trimEnd s) as [|c' t].
  - destruct (is_space c) eqn:Hc; [reflexivity | exact Hc].
  - exact IH.
Qed.

Lemma blank_parts (n : nat) (s : string) :
  only_whitespace (take n s) = true -> all_blank (skip n s) = true ->
  only_whitespace s = true.
Proof.
  revert s; induction n as [|n IH]; intros s.
  - intros _; cbn [skip]; induction s as [|c s IHs]; [reflexivity|].
    cbn [all_blank only_whitespace]; intros H; apply andb_true_iff in H.
    destruct H as [Hc Hs]; rewrite (IHs Hs), andb_true_r.
    unfold is_space; apply N.eqb_eq in Hc; rewrite Hc; reflexivity.
  - destruct s as [|c s]; [reflexivity|].
    cbn [take skip only_whitespace]; intros H; apply andb_true_iff in H.
    destruct H as [Hc Hs]; intros Hb; rewrite Hc, (IH s Hs Hb); reflexivity.
Qed.

Lemma varchar255_not_blank (s t : string) :
  varchar255 s = inr t -> only_whitespace s = false -> only_whitespace t = false.
Proof.
  unfold varchar255; intros H Hs.
  remember (skip 255 s) as rest eqn:Hrest; remember (take 255 s) as kept eqn:Hkept.
  destruct (String.length s <=? 255)%nat; [inversion H; subst t; exact Hs|].
  destruct (all_blank rest) eqn:Hb; [|discriminate].
  inversion H; subst t.
  destruct (only_whitespace kept) eqn:Ht; [|reflexivity].
  rewrite Hrest in Hb; rewrite Hkept in Ht.
  rewrite (blank_parts _ s Ht Hb) in Hs; discriminate Hs.
Qed.

(** The fields the page puts into a PUT: no field, or a text that is not
    blank; no field, or a member of the ENUM. *)
Lemma page_put_keeps_rows (i : string) (task status : jsval) (e : env) (db : Db) :
  (task = JUndefined \/ exists s, task = JStr s /\ only_whitespace s = false) ->
  (status = JUndefined \/ exists s, status = JStr s /\ is_member s = true) ->
  Forall well_kept (rows (todos db)) ->
  Forall well_kept (rows (todos (snd (put_todos i task status e db)))).
Proof.
  intros Ht Hs Hinv.
  destruct (put_todos_table i task status e db)
    as [->|(k & l & m & c & _ & Hu & ->)]; [exact Hinv|].
  apply update_rows_spec in Hu; destruct Hu as (HF & _ & _); cbn [rows].
  induction HF as [|x x' l0 l0' Hx _ IH]; [constructor|].
  inversion_clear Hinv as [|? ? [Hxt Hxs] Hrest]; constructor; [|exact (IH Hrest)].
  destruct (has_key k x); [|subst; split; assumption].
  unfold set_list in Hx.
  destruct Ht as [->|(t & -> & Hblank)], Hs as [->|(s & -> & Hmem)];
    cbn [defined escape Datatypes.app assign_all assign store_task] in Hx.
  - inversion Hx; subst; split; assumption.
  - rewrite (is_member_stored s Hmem) in Hx; inversion Hx; subst; split; [exact Hxt|].
    cbn [MySQL.status]; unfold is_member in Hmem; apply orb_true_iff in Hmem.
    destruct Hmem as [H|H]; apply String.eqb_eq in H; subst; auto.
  - destruct (varchar255 t) as [err|t'] eqn:Hv; [discriminate|].
    inversion Hx; subst; split; [|exact Hxs].
    exact (varchar255_not_blank t t' Hv Hblank).
  - destruct (varchar255 t) as [err|t'] eqn:Hv; [discriminate|].
    cbn [MySQL.task MySQL.status id created_at] in Hx.
    rewrite (is_member_stored s Hmem) in Hx; inversion Hx; subst; split.
    + exact (varchar255_not_blank t t' Hv Hblank).
    + cbn [MySQL.status]; unfold is_member in Hmem; apply orb_true_iff in Hmem.
      destruct Hmem as [H|H]; apply String.eqb_eq in H; subst; auto.
Qed.

Lemma addTodo_sends (input : string) (r : request) :
  addTodo input = Some r -> r = POST (JStr (trim input)) /\ trim input <> "".
Proof.
  unfold addTodo; destruct (trim input) eqn:Ht; simpl; [discriminate|].
  intros H; inversion H; split; [reflexivity | discriminate].
Qed.

Lemma updateTodo_sends (i : Z) (newTask : string) (r : request) :
  updateTodo i newTask = Some r ->
  r = PUT (decimal i) (JStr newTask) JUndefined /\ only_whitespace newTask = false.
Proof.
  unfold updateTodo; destruct (trim newTask) eqn:Ht; simpl; [discriminate|].
  intros H; inversion H; split; [reflexivity|].
  apply trim_not_blank; rewrite Ht; discriminate.
Qed.

Lemma opposite_is_member (v : jsval) : is_member (opposite v) = true.
Proof. unfold opposite; destruct (strict_eq v (JStr "active")); reflexivity. Qed.

Lemma perform_keeps_rows (a : action) (e : env) (db : Db) :
  Forall well_kept (rows (todos db)) ->
  Forall well_kept (rows (todos (perform a e db))).
Proof.
  intros Hinv; destruct a as [input|i newTask|i|i|]; cbn [perform send].
  - destruct (addTodo input) as [r|] eqn:Ha; [|exact Hinv].
    apply addTodo_sends in Ha; destruct Ha as [-> Hne]; cbn [send app].
    destruct (post_todos_table (JStr (trim input)) e db)
      as [->|(text & _ & Hs & _ & ->)]; [exact Hinv|].
    cbn [rows]; apply Forall_app; split; [exact Hinv|].
    constructor; [|constructor]; split; [|left; reflexivity].
    exact (varchar255_not_blank _ _ Hs (proj1 (trim_not_blank input Hne))).
  - destruct (updateTodo i newTask) as [r|] eqn:Hu; [|exact Hinv].
    apply updateTodo_sends in Hu; destruct Hu as [-> Hb]; cbn [send app].
    apply page_put_keeps_rows; [right; exists newTask | left |]; auto.
  - unfold click_status.
    destruct (find (has_key (Some i)) (rows (todos db))) as [r|]; [|exact Hinv].
    rewrite toggleStatus_opposite; cbn [app].
    apply page_put_keeps_rows; [left | right; eexists; split |]; auto.
    apply opposite_is_member.
  - cbn [send app]; destruct (delete_todos_table (decimal i) e db) as [->|(k & _ & ->)];
      [exact Hinv|].
    cbn [rows]; rewrite Forall_forall in *; intros x Hx; apply filter_In in Hx.
    apply Hinv; tauto.
  - cbn [send app]; rewrite get_todos_table; exact Hinv.
Qed.

(** X16: what the page alone can lead to keeps the two invariants the API
    alone does not: in every state reached through [addTodo], [updateTodo],
    the status button, confirmed deletions and refreshes, every task has a
    text that is not blank and a status that is active or completed. *)
Theorem page_keeps_text_and_status (db : Db) :
  page_reachable db -> Forall well_kept (rows (todos db)).
Proof.
  induction 1 as [|a e db _ IH]; [constructor|].
  apply perform_keeps_rows; exact IH.
Qed.

Lemma page_keeps_text_and_status_witness :
  page_reachable (perform (commit_edit 1 "   ") sample_env
                    (perform (add_task "  Buy milk ") sample_env initial_db))
  /\ Forall well_kept
       (rows (todos (perform (commit_edit 1 "   ") sample_env
                       (perform (add_task "  Buy milk ") sample_env initial_db)))).
Proof.
  assert (page_reachable (perform (commit_edit 1 "   ") sample_env
                            (perform (add_task "  Buy milk ") sample_env initial_db)))
    as Hreach by (do 2 apply page_action; apply page_initial).
  split; [exact Hreach|].
  exact (page_keeps_text_and_status _ Hreach).
Defined.

Lemma queried_not_invalid (sql : statement) (values : list jsval)
    (ok : results -> response) (e : env) (db : Db) :
  (forall res, status_code (ok res) = 200) ->
  ~ ValidationError
      (fst (db_query sql values
              (fun outcome =>
                 match outcome with
                 | inl err => res_status_json 400 (json_error (err_message err))
                 | inr res => ok res
                 end) e db)).
Proof.
  intros Hok; rewrite db_query_run; cbn [fst].
  destruct (fst (execute e sql (map escape values) (todos db))) as [err|res];
    intros [Hc [s Hb]]; [discriminate Hb|].
  rewrite Hok in Hc; discriminate Hc.
Qed.

(** X17: the page never draws a validation error: the request [addTodo]
    sends is not answered with "Task content is required", and the requests
    [updateTodo] and [toggleStatus] send are not answered with "No fields to
    update". *)
Theorem page_requests_pass_validation (e : env) (db : Db) :
  (forall input r, addTodo input = Some r -> ~ ValidationError (fst (app r e db)))
  /\ (forall id newTask r,
        updateTodo id newTask = Some r -> ~ ValidationError (fst (app r e db)))
  /\ (forall id currentStatus,
        ~ ValidationError (fst (app (toggleStatus id currentStatus) e db))).
Proof.
  repeat split.
  - intros input r Ha; apply addTodo_sends in Ha; destruct Ha as [-> Hne].
    cbn [app]; unfold post_todos.
    replace (truthy (JStr (trim input))) with true
      by (destruct (trim input); [contradiction | reflexivity]).
    apply (queried_not_invalid INSERT_INTO_todos [JStr (trim input)]
             (fun results => res_json (json_task "success" (insertId results)
                                         (JStr (trim input)) "active" (new_Date e)))).
    reflexivity.
  - intros id newTask r Hu; apply updateTodo_sends in Hu; destruct Hu as [-> _].
    apply (queried_not_invalid (UPDATE_todos_SET [col_task])
             [JStr newTask; JStr (decimal id)]
             (fun results => res_json (json_changes "success" (changedRows results)))).
    reflexivity.
  - intros id currentStatus; rewrite toggleStatus_opposite.
    apply (queried_not_invalid (UPDATE_todos_SET [col_status])
             [JStr (opposite currentStatus); JStr (decimal id)]
             (fun results => res_json (json_changes "success" (changedRows results)))).
    reflexivity.
Qed.

(** X18: [addTodo] stores the text of the box without the white space
    around it.  For a text of one-byte characters, with the storage
    answering: a text left after trimming, of at most 255 characters, is
    inserted as a new active task, and it neither begins nor ends with white
    space. *)
Theorem add_task_stores_trimmed_text (input : string) (e : env) (db : Db) :
  ascii_only input = true ->
  storage_up e = true ->
  trim input <> "" ->
  (String.length (trim input) <= 255)%nat ->
  auto_increment (todos db) <= INT_MAX ->
  rows (todos (perform (add_task input) e db))
  = rows (todos db)
    ++ [{| id := auto_increment (todos db); task := trim input;
           status := Some "active"; created_at := CURRENT_TIMESTAMP e |}]
  /\ starts_with_space (trim input) = false
  /\ ends_with_space (trim input) = false.
Proof.
  intros _ Hup Hne Hlen Hmax.
  assert (truthy (JStr (trim input)) = true) as Ht
    by (destruct (trim input); [contradiction | reflexivity]).
  split; [|split].
  - cbn [perform]; unfold addTodo; rewrite Ht; cbn [negb send app].
    destruct (post_todos_run (JStr (trim input)) (trim input) e db Ht Hup
                (varchar255_fits _ Hlen) Hmax) as [_ ->].
    reflexivity.
  - apply trimEnd_starts, trimStart_starts.
  - apply trimEnd_ends.
Qed.

Lemma add_task_stores_trimmed_text_witness :
  ascii_only "  Walk the dog " = true
  /\ storage_up sample_env = true
  /\ rows (todos (perform (add_task "  Walk the dog ") sample_env one_task_db))
     = rows (todos one_task_db)
       ++ [{| id := 2; task := "Walk the dog"; status := Some "active";
              created_at := 1762151696000 |}].
Proof.
  split; [reflexivity|]; split; [reflexivity|].
  refine (proj1 (add_task_stores_trimmed_text "  Walk the dog " sample_env one_task_db
                   eq_refl eq_refl _ _ _)).
  - discriminate.
  - simpl; lia.
  - unfold INT_MAX; simpl; lia.
Defined.

(** X19: [updateTodo] checks the trimmed text but sends the text as typed.
    For a text of one-byte characters, with the storage answering: an edit
    that is not blank and has at most 255 characters becomes the text of the
    task with the key, white space around it included; the other rows, and
    the other fields, stay. *)
Theorem commit_edit_stores_text_as_typed (i : Z) (newTask : string) (e : env) (db : Db) :
  ascii_only newTask = true ->
  storage_up e = true ->
  only_whitespace newTask = false ->
  (String.length newTask <= 255)%nat ->
  rows (todos (perform (commit_edit i newTask) e db))
  = map (fun r => if has_key (Some i) r
                  then {| id := id r; task := newTask; status := status r;
                          created_at := created_at r |}
                  else r)
      (rows (todos db)).
Proof.
  intros _ Hup Hb Hlen.
  assert (trim newTask <> "") as Hne.
  { intros Ht; pose proof (trimStart_blank newTask) as H.
    unfold trim in Ht.
    assert (only_whitespace (trimStart newTask) = true) as Hs.
    { clear - Ht; induction (trimStart newTask) as [|c s IH]; [reflexivity|].
      cbn [trimEnd] in Ht; destruct (trimEnd s) eqn:Hs; [|discriminate Ht].
      destruct (is_space c) eqn:Hc; [|discriminate Ht].
      cbn [only_whitespace]; rewrite Hc, IH; reflexivity. }
    rewrite (H Hs) in Hb; discriminate Hb. }
  cbn [perform]; unfold updateTodo.
  replace (truthy (JStr (trim newTask))) with true
    by (destruct (trim newTask); [contradiction | reflexivity]).
  cbn [negb send app].
  pose proof (put_todos_run (decimal i) (Some i) (JStr newTask) JUndefined e db
                eq_refl Hup (key_of_decimal i)) as H.
  rewrite (update_rows_total _ (put_row (JStr newTask) JUndefined) _ _
             (fun r => assign_all_put_row (JStr newTask) JUndefined r
                         (proj2 (Nat.leb_le _ _) Hlen) eq_refl)) in H.
  apply pair_equal_spec in H; destruct H as [_ ->]; reflexivity.
Qed.

Lemma commit_edit_stores_text_as_typed_witness :
  ascii_only " Buy bread  " = true
  /\ storage_up sample_env = true
  /\ rows (todos (perform (commit_edit 1 " Buy bread  ") sample_env one_task_db))
     = [{| id := 1; task := " Buy bread  "; status := Some "active";
           created_at := 1762151696000 |}].
Proof.
  split; [reflexivity|]; split; [reflexivity|].
  refine (commit_edit_stores_text_as_typed 1 " Buy bread  " sample_env one_task_db
            eq_refl eq_refl eq_refl _).
  simpl; lia.
Defined.

(** ** The status button, for any status *)

Lemma find_key (i : Z) (l : list row) (r : row) :
  In r l -> id r = i ->
  exists r0, find (has_key (Some i)) l = Some r0 /\ id r0 = i.
Proof.
  intros Hin Hi; destruct (find (has_key (Some i)) l) as [r0|] eqn:Hf.
  - exists r0; split; [reflexivity|].
    apply find_some in Hf; apply has_key_Some; tauto.
  - exfalso; apply (find_none _ _ Hf) in Hin.
    apply has_key_Some_false in Hin; contradiction.
Qed.

Lemma set_status_twice (i : Z) (s s' : string) (l : list row) :
  map (set_status i s') (map (set_status i s) l) = map (set_status i s') l.
Proof.
  rewrite map_map; apply map_ext; intros x.
  unfold set_status; cbn [has_key]; destruct (id x =? i) eqn:Hk;
    cbn [id]; rewrite Hk; reflexivity.
Qed.

Lemma opposite_twice (s : string) :
  s = "active" \/ s = "completed" -> opposite (JStr (opposite (JStr s))) = s.
Proof. intros [-> | ->]; reflexivity. Qed.

Lemma todo_status_set (i : Z) (s : string) (r : row) :
  id r = i -> todo_status (set_status i s r) = JStr s.
Proof.
  intros Hi; unfold set_status, todo_status; cbn [has_key].
  rewrite (proj2 (Z.eqb_eq _ _) Hi); reflexivity.
Qed.

(** X20: the status button works on a task of any status, NULL included.
    With the storage answering, after one press the task with the key is
    completed if the view showed it active, and active otherwise; a third
    press leaves the table as the first one left it. *)
Theorem press_status_from_any_status (r : row) (e1 e2 e3 : env) (db : Db) :
  In r (rows (todos db)) ->
  storage_up e1 = true ->
  storage_up e2 = true ->
  storage_up e3 = true ->
  (exists shown,
      find (has_key (Some (id r))) (rows (todos db)) = Some shown
      /\ rows (todos (click_status (id r) e1 db))
         = map (set_status (id r) (opposite (todo_status shown))) (rows (todos db)))
  /\ todos (click_status (id r) e3 (click_status (id r) e2 (click_status (id r) e1 db)))
     = todos (click_status (id r) e1 db).
Proof.
  intros Hin Hup1 Hup2 Hup3.
  destruct (find_key (id r) _ r Hin eq_refl) as (r0 & Hf0 & Hi0).
  pose proof (click_status_found (id r) e1 db r0 Hup1 Hf0) as H1.
  set (i := id r) in *; set (s1 := opposite (todo_status r0)) in *.
  set (db1 := click_status i e1 db) in *.
  split; [exists r0; split; [exact Hf0 | rewrite H1; reflexivity]|].
  assert (find (has_key (Some i)) (rows (todos db1)) = Some (set_status i s1 r0)) as Hf1
    by (rewrite H1; cbn [rows]; rewrite find_set_status, Hf0; reflexivity).
  pose proof (click_status_found i e2 db1 _ Hup2 Hf1) as H2.
  rewrite (todo_status_set i s1 r0 Hi0), H1 in H2; cbn [rows auto_increment] in H2.
  rewrite set_status_twice in H2.
  set (s2 := opposite (JStr s1)) in *; set (db2 := click_status i e2 db1) in *.
  assert (find (has_key (Some i)) (rows (todos db2)) = Some (set_status i s2 r0)) as Hf2
    by (rewrite H2; cbn [rows]; rewrite find_set_status, Hf0; reflexivity).
  pose proof (click_status_found i e3 db2 _ Hup3 Hf2) as H3.
  rewrite (todo_status_set i s2 r0 Hi0), H2 in H3; cbn [rows auto_increment] in H3.
  rewrite set_status_twice in H3.
  unfold s2 in H3; rewrite (opposite_twice s1 (opposite_member _)) in H3.
  rewrite H3, H1; reflexivity.
Qed.

Lemma press_status_from_any_status_witness :
  In {| id := 1; task := "Buy milk"; status := None; created_at := 1762151696000 |}
     (rows (todos (snd (app (PUT "1" JUndefined JNull) sample_env one_task_db))))
  /\ todos (click_status 1 sample_env
              (click_status 1 sample_env
                 (click_status 1 sample_env
                    (snd (app (PUT "1" JUndefined JNull) sample_env one_task_db)))))
     = todos (click_status 1 sample_env
                (snd (app (PUT "1" JUndefined JNull) sample_env one_task_db))).
Proof.
  assert (In {| id := 1; task := "Buy milk"; status := None;
                created_at := 1762151696000 |}
             (rows (todos (snd (app (PUT "1" JUndefined JNull) sample_env one_task_db)))))
    as Hin by (left; reflexivity).
  split; [exact Hin|].
  exact (proj2 (press_status_from_any_status _ sample_env sample_env sample_env
                  _ Hin eq_refl eq_refl eq_refl)).
Defined.
